(** * init_template.py: the template initialisation script

    A shallow embedding of [src/init_template.py] and the properties of
    its name transformers, of its file-system steps and of [main].

    Python strings are sequences of Unicode code points, so a string is
    a [list N] here.  The library functions the script calls ([re.sub],
    [str.lower], [str.strip], [str.title], [pathlib], [shutil]) are
    modelled next to the functions that use them. *)

From Stdlib Require Import NArith ZArith List String Ascii Bool Lia.
From stdpp Require Import base option list gmap.

Local Open Scope N_scope.

(** ** Code points and strings *)

Abbreviation str := (list N).

(** [u "abc"] is the Python literal ['abc'] (ASCII literals only). *)
Definition u (s : string) : str := List.map N_of_ascii (list_ascii_of_string s).

Definition in_range (lo hi c : N) : bool := (lo <=? c) && (c <=? hi).

Definition dq : N := 34.          (* the double quote *)
Definition backslash : N := 92.
Definition newline : N := 10.

Fixpoint str_eqb (a b : str) : bool :=
  match a, b with
  | [], [] => true
  | x :: a', y :: b' => (x =? y) && str_eqb a' b'
  | _, _ => false
  end.

(** ** The Unicode character database, in excerpt

    The tables below are exact on the Basic Latin and Latin-1 Supplement
    blocks (code points below 256) and on the eight further code points
    that the case mappings of those blocks and the case-insensitive
    matching of ASCII letters reach: U+0130, U+0131, U+0178, U+017F,
    U+0307, U+039C, U+03BC and U+212A.  Every other code point is taken
    to be a caseless symbol; what the properties below say in general
    of the text that the name transformers compute is therefore said of
    strings of code points below 256. *)
Module Unicode.

(** [str.isalnum] of one character, which is what [\w] tests besides
    the underscore. *)
Definition isalnum (c : N) : bool :=
  in_range 0x30 0x39 c || in_range 0x41 0x5A c || in_range 0x61 0x7A c
  || (c =? 0xAA) || (c =? 0xB2) || (c =? 0xB3) || (c =? 0xB5) || (c =? 0xB9)
  || (c =? 0xBA) || in_range 0xBC 0xBE c
  || in_range 0xC0 0xD6 c || in_range 0xD8 0xF6 c || in_range 0xF8 0xFF c
  || (c =? 0x130) || (c =? 0x131) || (c =? 0x178) || (c =? 0x17F)
  || (c =? 0x39C) || (c =? 0x3BC) || (c =? 0x212A).

(** [str.isspace] of one character, which is what [\s] and [strip] test. *)
Definition isspace (c : N) : bool :=
  in_range 0x09 0x0D c || in_range 0x1C 0x20 c || (c =? 0x85) || (c =? 0xA0).

(** The simple (one to one) lowercase mapping, used by [re.IGNORECASE]. *)
Definition tolower (c : N) : N :=
  if in_range 0x41 0x5A c || in_range 0xC0 0xD6 c || in_range 0xD8 0xDE c
  then c + 32
  else if c =? 0x130 then 0x69
  else if c =? 0x178 then 0xFF
  else if c =? 0x39C then 0x3BC
  else if c =? 0x212A then 0x6B
  else c.

(** The full lowercase mapping, used by [str.lower]: U+0130 becomes
    [i] followed by the combining dot above.  (The one rule of
    [str.lower] that looks at the context, for the Greek final sigma,
    concerns a character outside the excerpt.) *)
Definition lower (c : N) : str :=
  if c =? 0x130 then [0x69; 0x307] else [tolower c].

(** The full titlecase mapping, used by [str.title]. *)
Definition title (c : N) : str :=
  if in_range 0x61 0x7A c || in_range 0xE0 0xF6 c || in_range 0xF8 0xFE c
  then [c - 32]
  else if c =? 0xB5 then [0x39C]
  else if c =? 0xDF then [0x53; 0x73]
  else if c =? 0xFF then [0x178]
  else if c =? 0x131 then [0x49]
  else if c =? 0x17F then [0x53]
  else if c =? 0x3BC then [0x39C]
  else [c].

(** The [Cased] property, which [str.title] consults. *)
Definition iscased (c : N) : bool :=
  in_range 0x41 0x5A c || in_range 0x61 0x7A c
  || (c =? 0xAA) || (c =? 0xB5) || (c =? 0xBA)
  || in_range 0xC0 0xD6 c || in_range 0xD8 0xF6 c || in_range 0xF8 0xFF c
  || (c =? 0x130) || (c =? 0x131) || (c =? 0x178) || (c =? 0x17F)
  || (c =? 0x39C) || (c =? 0x3BC) || (c =? 0x212A).

(** The extra characters that match a lowered literal under
    [re.IGNORECASE] although they do not lowercase to it (sre's
    equivalence table, restricted to the excerpt). *)
Definition casefix (lo : N) : list N :=
  if lo =? 0x69 then [0x131] else if lo =? 0x131 then [0x69]
  else if lo =? 0x73 then [0x17F] else if lo =? 0x17F then [0x73]
  else if lo =? 0xB5 then [0x3BC] else if lo =? 0x3BC then [0xB5]
  else [].

End Unicode.

(** ** String methods *)

(** [s.lower()] *)
Definition lower (s : str) : str := flat_map Unicode.lower s.

Fixpoint lstrip (s : str) : str :=
  match s with
  | c :: s' => if Unicode.isspace c then lstrip s' else s
  | [] => []
  end.

(** [s.strip()] *)
Definition strip (s : str) : str := rev (lstrip (rev (lstrip s))).

(** [s.replace(a, b)] for one-character [a] and [b]. *)
Definition replace_char (a b : N) (s : str) : str :=
  List.map (fun c => if c =? a then b else c) s.

Fixpoint title_from (previous_is_cased : bool) (s : str) : str :=
  match s with
  | [] => []
  | c :: s' =>
      (if previous_is_cased then Unicode.lower c else Unicode.title c)
        ++ title_from (Unicode.iscased c) s'
  end.

(** [s.title()] *)
Definition title (s : str) : str := title_from false s.

(** [s * n] *)
Definition repeat_str (s : str) (n : nat) : str := List.concat (List.repeat s n).

(** [x in xs] for a list of strings. *)
Definition str_in (x : str) (xs : list str) : bool := existsb (str_eqb x) xs.

(** ** Regular expressions

    The fragment of [re] that the script uses: a pattern is a sequence
    of items, each a single character test, possibly under [+] or [*].
    Matching is Python's: leftmost, greedy, with backtracking. *)

Inductive cls :=
| CChar (c : N)      (* a character listed in a set *)
| CWord              (* \w *)
| CSpace.            (* \s *)

Inductive atom :=
| Lit (c : N)                          (* a literal character *)
| Dot                                  (* .  : anything but a newline *)
| Set_ (negated : bool) (cs : list cls).   (* [...] and [^...] *)

Inductive item :=
| One (a : atom)
| Plus (a : atom)      (* a+ *)
| Many (a : atom).     (* a* *)

Abbreviation pattern := (list item).

(** A pattern without metacharacters, such as ['name = "Your Name"']. *)
Definition lits (s : str) : pattern := List.map (fun c => One (Lit c)) s.

Definition is_word (c : N) : bool := Unicode.isalnum c || (c =? 95).

Definition cls_matches (k : cls) (c : N) : bool :=
  match k with
  | CChar x => c =? x
  | CWord => is_word c
  | CSpace => Unicode.isspace c
  end.

(** [atom_matches ic a c]: does [c] match [a]; [ic] is [re.IGNORECASE],
    which concerns literals (no set occurs under the flag in the script). *)
Definition atom_matches (ic : bool) (a : atom) (c : N) : bool :=
  match a with
  | Lit x =>
      if ic
      then let lo := Unicode.tolower x in
           existsb (N.eqb (Unicode.tolower c)) (lo :: Unicode.casefix lo)
      else c =? x
  | Dot => negb (c =? newline)
  | Set_ negated cs => xorb negated (existsb (fun k => cls_matches k c) cs)
  end.

(** Greedy repetition: take as many [ok] characters as possible, and
    give back one at a time while the rest of the pattern fails. *)
Fixpoint star_then {R : Type} (ok : N -> bool) (k : str -> option R) (s : str)
  : option R :=
  match s with
  | c :: s' =>
      if ok c
      then match star_then ok k s' with
           | Some r => Some r
           | None => k s
           end
      else k s
  | [] => k []
  end.

(** [match_here ic p s]: match [p] at the start of [s]; the result is
    what is left of [s] after the match. *)
Fixpoint match_here (ic : bool) (p : pattern) (s : str) : option str :=
  match p with
  | [] => Some s
  | One a :: p' =>
      match s with
      | c :: s' => if atom_matches ic a c then match_here ic p' s' else None
      | [] => None
      end
  | Plus a :: p' =>
      match s with
      | c :: s' =>
          if atom_matches ic a c
          then star_then (atom_matches ic a) (match_here ic p') s'
          else None
      | [] => None
      end
  | Many a :: p' => star_then (atom_matches ic a) (match_here ic p') s
  end.

(** *** Replacement templates

    [re.sub] reads its replacement as a template: a backslash starts an
    escape ([sre_parse.parse_template], as of CPython 3.12).  The
    script's patterns have no groups, so the only group reference that
    is valid is [\g<0>], the whole match. *)

Inductive piece :=
| Chr (c : N)     (* one character of replacement text *)
| Group0.         (* the matched text *)

Definition is_digit (c : N) : bool := in_range 48 57 c.
Definition is_octdigit (c : N) : bool := in_range 48 55 c.
Definition is_ascii_letter (c : N) : bool := in_range 65 90 c || in_range 97 122 c.
Definition digit (c : N) : N := c - 48.

(** The table [ESCAPES]. *)
Definition escape_char (c : N) : option N :=
  if c =? 97 then Some 7            (* \a *)
  else if c =? 98 then Some 8       (* \b *)
  else if c =? 102 then Some 12     (* \f *)
  else if c =? 110 then Some 10     (* \n *)
  else if c =? 114 then Some 13     (* \r *)
  else if c =? 116 then Some 9      (* \t *)
  else if c =? 118 then Some 11     (* \v *)
  else if c =? 92 then Some 92      (* a doubled backslash *)
  else None.

(** A group number that denotes group 0: ASCII digits, all of them zero. *)
Definition group_zero (name : str) : bool :=
  negb (Nat.eqb (length name) 0) && forallb (N.eqb 48) name.

(** [parse_template name t]: [name] is [Some n] while the scan is inside
    [\g<...>], with [n] the part of the group name read so far.  [None]
    stands for the exception the library raises ([re.error], or
    [IndexError] for an unknown group name). *)
Fixpoint parse_template (name : option str) (t : str) : option (list piece) :=
  match name with
  | Some nm =>
      match t with
      | [] => None                                   (* missing > *)
      | c :: t' =>
          if c =? 62
          then if group_zero nm
               then cons Group0 <$> parse_template None t'
               else None                             (* not a group of the pattern *)
          else parse_template (Some (nm ++ [c])) t'
      end
  | None =>
      match t with
      | [] => Some []
      | c :: t' =>
          if negb (c =? backslash)
          then cons (Chr c) <$> parse_template None t'
          else
            match t' with
            | [] => None                             (* bad escape (end of pattern) *)
            | e :: t2 =>
                if e =? 103                          (* \g *)
                then match t2 with
                     | lt :: t3 =>
                         if lt =? 60 then parse_template (Some []) t3
                         else None                   (* missing < *)
                     | [] => None
                     end
                else if e =? 48                      (* \0, \0o, \0oo *)
                then match t2 with
                     | d1 :: t3 =>
                         if is_octdigit d1
                         then match t3 with
                              | d2 :: t4 =>
                                  if is_octdigit d2
                                  then cons (Chr (N.land (8 * digit d1 + digit d2) 255))
                                         <$> parse_template None t4
                                  else cons (Chr (digit d1)) <$> parse_template None t3
                              | [] => Some [Chr (digit d1)]
                              end
                         else cons (Chr 0) <$> parse_template None t2
                     | [] => Some [Chr 0]
                     end
                else if is_digit e                   (* \ooo, or a group reference *)
                then match t2 with
                     | d1 :: d2 :: t4 =>
                         if is_octdigit e && is_octdigit d1 && is_octdigit d2
                         then let v := 64 * digit e + 8 * digit d1 + digit d2 in
                              if 255 <? v then None  (* octal escape out of range *)
                              else cons (Chr v) <$> parse_template None t4
                         else None                   (* invalid group reference *)
                     | _ => None                     (* invalid group reference *)
                     end
                else match escape_char e with
                     | Some x => cons (Chr x) <$> parse_template None t2
                     | None =>
                         if is_ascii_letter e then None      (* bad escape *)
                         else (fun ps => Chr backslash :: Chr e :: ps)
                                <$> parse_template None t2
                     end
            end
      end
  end.

Definition expand (t : list piece) (m : str) : str :=
  flat_map (fun p => match p with Chr c => [c] | Group0 => m end) t.

(** *** Substitution

    [sub_loop] scans the string from the left.  Every round either
    consumes a character or ends the scan, so [S (length s)] rounds are
    enough ([sub_loop_fuel] below). *)
Fixpoint sub_loop (fuel : nat) (ic : bool) (p : pattern) (t : list piece) (s : str)
  : str :=
  match fuel with
  | O => s
  | S fuel' =>
      match match_here ic p s with
      | Some rest =>
          match (length s - length rest)%nat, s with
          | O, c :: s' => expand t [] ++ c :: sub_loop fuel' ic p t s'
          | O, [] => expand t []
          | n, _ => expand t (take n s) ++ sub_loop fuel' ic p t rest
          end
      | None =>
          match s with
          | c :: s' => c :: sub_loop fuel' ic p t s'
          | [] => []
          end
      end
  end.

Definition re_sub_with (ic : bool) (p : pattern) (t : list piece) (s : str) : str :=
  sub_loop (S (length s)) ic p t s.

(** [re.sub(p, repl, s)], and [re.sub(p, repl, s, flags=re.IGNORECASE)]
    when [ic] is [true]; [None] when the template is rejected. *)
Definition re_sub (ic : bool) (p : pattern) (repl : str) (s : str) : option str :=
  (fun t => re_sub_with ic p t s) <$> parse_template None repl.

(** [re.sub] with a replacement that has no backslash: the template is
    the text itself ([re_sub_plain_spec] below). *)
Definition re_sub_plain (ic : bool) (p : pattern) (repl : str) (s : str) : str :=
  re_sub_with ic p (List.map Chr repl) s.

(** ** The name transformers *)

Definition hyphen : N := 45.
Definition underscore : N := 95.

Definition to_snake_case (name : str) : str :=
  (* Replace hyphens and spaces with underscores *)
  let name := re_sub_plain false [Plus (Set_ false [CChar hyphen; CSpace])] (u "_") name in
  (* Remove any non-alphanumeric characters except underscores *)
  let name := re_sub_plain false [One (Set_ true [CWord])] (u "") name in
  (* Convert to lowercase *)
  lower name.

Definition to_kebab_case (name : str) : str :=
  (* Replace underscores and spaces with hyphens *)
  let name := re_sub_plain false [Plus (Set_ false [CChar underscore; CSpace])] (u "-") name in
  (* Remove any non-alphanumeric characters except hyphens *)
  let name := re_sub_plain false [One (Set_ true [CWord; CChar hyphen])] (u "") name in
  (* Convert to lowercase *)
  lower name.

(** ** Paths

    A [pathlib] path on POSIX is its tuple of parts; an absolute path
    has the root (["/"] or ["//"]) as its first part. *)

Abbreviation path := (list str).

Definition slash : N := 47.

Fixpoint split_slash (cur : str) (s : str) : list str :=
  match s with
  | [] => [cur]
  | c :: s' => if c =? slash then cur :: split_slash [] s'
               else split_slash (cur ++ [c]) s'
  end.

(** The root of a path string: two leading slashes are kept, one or
    three and more are a single slash. *)
Definition root_of (s : str) : list str :=
  match s with
  | a :: b :: c :: _ =>
      if negb (a =? slash) then []
      else if (b =? slash) && negb (c =? slash) then [u "//"] else [u "/"]
  | [a; b] =>
      if negb (a =? slash) then []
      else if b =? slash then [u "//"] else [u "/"]
  | [a] => if a =? slash then [u "/"] else []
  | [] => []
  end.

Definition keeps_part (part : str) : bool :=
  negb (str_eqb part []) && negb (str_eqb part (u ".")).

(** [Path(s)] *)
Definition Path (s : str) : path :=
  root_of s ++ List.filter keeps_part (split_slash [] s).

(** [p / s]: an absolute right operand replaces the left one. *)
Definition joinpath (p : path) (s : str) : path :=
  match root_of s with
  | [] => p ++ Path s
  | _ => Path s
  end.

Notation "p // s" := (joinpath p s) (at level 40, left associativity).

Fixpoint join_parts (parts : list str) : str :=
  match parts with
  | [] => []
  | [x] => x
  | x :: rest => x ++ [slash] ++ join_parts rest
  end.

Definition is_root_part (x : str) : bool := str_eqb x (u "/") || str_eqb x (u "//").

(** [str(p)] *)
Definition path_str (p : path) : str :=
  match p with
  | [] => u "."
  | x :: rest => if is_root_part x then x ++ join_parts rest else join_parts p
  end.

(** [p.name] *)
Definition path_name (p : path) : str :=
  match p with
  | [x] => if is_root_part x then [] else x
  | _ => List.last p []
  end.

Definition parent (p : path) : path := removelast p.

(** [under d p]: the parts of [p] below [d], when [p] is [d] or lies in it. *)
Fixpoint under (d p : path) : option path :=
  match d, p with
  | [], _ => Some p
  | x :: d', y :: p' => if str_eqb x y then under d' p' else None
  | _ :: _, [] => None
  end.

(** ** The world the script runs in

    A file system without symbolic links, keyed by path as the script
    spells it; the lines still to come on standard input; what has been
    written to standard output; the script's own location ([__file__]);
    and an oracle [fault] deciding which operations the environment
    makes fail (permissions, a missing [git] executable, ...), with the
    text of the exception; and what [git init] writes into a new
    repository. *)

Inductive node :=
| File (content : str)
| Dir.

Inductive syscall :=
| SysMove (src dst : path)   (* renaming in place *)
| SysCopy (p : path)        (* copying one entry of a tree *)
| SysRead (p : path)        (* reading and decoding a file *)
| SysWrite (p : path)       (* opening a file for writing *)
| SysFlush (p : path)       (* encoding the text and writing it out *)
| SysRmtree (p : path)      (* removing one entry of a tree *)
| SysGitInit
| SysUnlink (p : path).

(** What the user does at a prompt: type a line, or press Ctrl-C.  The
    end of the list is the end of input. *)
Inductive event :=
| Line (s : str)
| Interrupt.

Record world := World {
  fs : gmap path node;
  stdin : list event;
  stdout : list str;
  fault : syscall -> option str;
  script : path;
  git_template : gmap path node
}.

Definition with_fs (m : gmap path node) (w : world) : world :=
  World m (stdin w) (stdout w) (fault w) (script w) (git_template w).
Definition with_stdin (i : list event) (w : world) : world :=
  World (fs w) i (stdout w) (fault w) (script w) (git_template w).
Definition with_stdout (o : list str) (w : world) : world :=
  World (fs w) (stdin w) o (fault w) (script w) (git_template w).

(** ** Computations: state and exceptions *)

Inductive exn :=
| Exception (msg : str)      (* any subclass of Exception, with its text *)
| KeyboardInterrupt.

Inductive outcome (A : Type) :=
| Ret (a : A)
| Raise (e : exn).
Arguments Ret {A} a.
Arguments Raise {A} e.

Definition M (A : Type) : Type := world -> outcome A * world.

Definition ret {A : Type} (a : A) : M A := fun w => (Ret a, w).

Definition raise {A : Type} (e : exn) : M A := fun w => (Raise e, w).

Definition bind {A B : Type} (m : M A) (k : A -> M B) : M B :=
  fun w => match m w with
           | (Ret a, w') => k a w'
           | (Raise e, w') => (Raise e, w')
           end.

(** [try: body except Exception as e: handler]; a [KeyboardInterrupt]
    is not an [Exception] and passes through. *)
Definition try_except {A : Type} (body : M A) (handler : str -> M A) : M A :=
  fun w => match body w with
           | (Raise (Exception msg), w') => handler msg w'
           | r => r
           end.

Declare Scope monad_scope.
Delimit Scope monad_scope with M.
Notation "x <- m ;; k" := (bind m (fun x => k))
  (at level 100, m at next level, right associativity) : monad_scope.
Notation "m ;; k" := (bind m (fun _ => k))
  (at level 100, right associativity) : monad_scope.
Local Open Scope monad_scope.

(** A library call that may raise: [None] is [re.error]. *)
Definition lift_re {A : Type} (o : option A) : M A :=
  match o with
  | Some a => ret a
  | None => raise (Exception (u "re.error"))
  end.

(** *** Terminal *)

(** [print(s)]: one line of output. *)
Definition print (s : str) : M unit :=
  fun w => (Ret tt, with_stdout (stdout w ++ [s]) w).

(** [input(prompt)] *)
Definition input (prompt : str) : M str :=
  fun w =>
    let w' := with_stdout (stdout w ++ [prompt]) w in
    match stdin w with
    | Line s :: rest => (Ret s, with_stdin rest w')
    | Interrupt :: rest => (Raise KeyboardInterrupt, with_stdin rest w')
    | [] => (Raise (Exception (u "EOF when reading a line")), w')
    end.

(** *** File system *)

Definition is_root (p : path) : bool :=
  match p with
  | [] => true                     (* the working directory *)
  | [x] => is_root_part x
  | _ => false
  end.

Definition lookup_node (m : gmap path node) (p : path) : option node :=
  if is_root p then Some Dir else m !! p.

Definition is_dir (m : gmap path node) (p : path) : bool :=
  match lookup_node m p with Some Dir => true | _ => false end.

Definition exists_ (m : gmap path node) (p : path) : bool :=
  match lookup_node m p with Some _ => true | None => false end.

Definition oserror {A : Type} (msg : string) : outcome A := Raise (Exception (u msg)).

(** **** Names the file system takes

    A name is passed to the system as bytes (UTF-8, an undecodable
    byte of the terminal being kept as one of the surrogates U+DC80 to
    U+DCFF).  One part of a path has at most [name_max] bytes, and the
    whole path fewer than [path_max], as on Linux. *)

Definition utf8_length (c : N) : N :=
  if c <? 0x80 then 1
  else if c <? 0x800 then 2
  else if in_range 0xDC80 0xDCFF c then 1
  else if c <? 0x10000 then 3
  else 4.

Definition byte_length (s : str) : N :=
  fold_right (fun c n => utf8_length c + n) 0 s.

Definition name_max : N := 255.
Definition path_max : N := 4096.

Definition too_long (p : path) : bool :=
  existsb (fun part => name_max <? byte_length part) p
  || (path_max <=? byte_length (path_str p)).

(** A character that no file name can hold: the null character, and a
    surrogate that is not an escaped byte.  The system calls raise
    [ValueError] for it. *)
Definition bad_name_char (c : N) : bool :=
  (c =? 0) || (in_range 0xD800 0xDFFF c && negb (in_range 0xDC80 0xDCFF c)).

Definition bad_name (p : path) : bool := existsb (existsb bad_name_char) p.

(** The walk of [os.stat] along the parts of a path, [seen] being the
    parts behind it: [true] when the walk stops with [ENAMETOOLONG],
    at a part that is too long in a directory that exists.  A part
    that is merely missing gives [ENOENT], a part below a file
    [ENOTDIR]. *)
Fixpoint walk_too_long (m : gmap path node) (seen rest : path) : bool :=
  match rest with
  | [] => false
  | part :: rest' =>
      let here := seen ++ [part] in
      match lookup_node m here with
      | Some Dir => walk_too_long m here rest'
      | Some (File _) => false
      | None => name_max <? byte_length part
      end
  end.

Definition stat_too_long (m : gmap path node) (p : path) : bool :=
  (path_max <=? byte_length (path_str p)) || walk_too_long m [] p.

(** The text of the [OSError], for a path that Python shows as it is
    (no quote, backslash or unprintable character in it). *)
Definition name_too_long (p : path) : str :=
  u "[Errno 36] File name too long: '" ++ path_str p ++ u "'".

(** [p.exists()], as in CPython up to 3.12: of the errors of [os.stat]
    only [ENOENT], [ENOTDIR], [EBADF] and [ELOOP] mean that the path
    does not exist, and so does a [ValueError]; any other [OSError] is
    raised.  Without permissions or links in the model, that is
    [ENAMETOOLONG]. *)
Definition path_exists (p : path) : M bool :=
  fun w =>
    if exists_ (fs w) p then (Ret true, w)
    else if bad_name p then (Ret false, w)
    else if stat_too_long (fs w) p then (Raise (Exception (name_too_long p)), w)
    else (Ret false, w).

(** **** Trees *)

(** The entries of [src] and below, keyed by their path from [src]. *)
Definition below (src : path) (m : gmap path node) : gmap path node :=
  list_to_map
    (omap (M := list)
          (fun kv : path * node => match under src (fst kv) with
                                   | Some r => Some (r, snd kv)
                                   | None => None
                                   end)
          (map_to_list m)).

(** The tree [t] placed at [dst], over what [m] has there. *)
Definition graft (dst : path) (t m : gmap path node) : gmap path node :=
  kmap (app dst) t ∪ m.

Definition remove_tree (p : path) (m : gmap path node) : gmap path node :=
  list_to_map
    (List.filter (fun kv => match under p (fst kv) with Some _ => false | None => true end)
                 (map_to_list m)).

(** The entries of [src] and below, moved to [dst] and below. *)
Definition rekey (src dst : path) (m : gmap path node) : gmap path node :=
  graft dst (below src m) (remove_tree src m).

(** The directories above [p], the roots apart. *)
Definition ancestors (p : path) : list path :=
  List.filter (fun a => negb (is_root a))
              (List.map (fun n => take n p) (seq 1 (length p - 1))).

Definition is_file (m : gmap path node) (p : path) : bool :=
  match lookup_node m p with Some (File _) => true | _ => false end.

(** [os.rename(src, dst)]: the entry and all below it change place at
    once.  Only a file may replace a file; the directory that receives
    the entry must exist, and cannot lie in the tree that moves.  The
    oracle stands for the failures of the environment (another
    device, permissions). *)
Definition os_rename (src dst : path) : M unit :=
  fun w =>
    let m := fs w in
    match fault w (SysMove src dst) with
    | Some msg => (Raise (Exception msg), w)
    | None =>
        match m !! src with
        | None => (oserror "No such file or directory", w)
        | Some n =>
            let clash :=
              match n, lookup_node m dst with
              | File _, Some (File _) => false
              | _, Some _ => true
              | _, None => false
              end in
            if clash then (oserror "Not a directory", w)
            else if negb (is_dir m (parent dst))
            then (oserror "No such file or directory", w)
            else if too_long dst then (oserror "File name too long", w)
            else match under src dst with
                 | Some _ => (oserror "Invalid argument", w)
                 | None => (Ret tt, with_fs (rekey src dst (delete dst m)) w)
                 end
        end
    end.

(** Whether the copy of the entry [k] goes through. *)
Definition copies (w : world) (k : path) : bool :=
  match fault w (SysCopy k) with
  | None => true
  | Some _ => false
  end.

(** The texts of the copies that fail, for the entries of [src] and
    below. *)
Definition copy_errors (src : path) (w : world) : list str :=
  omap (M := list)
       (fun kv : path * node => match under src (fst kv) with
                                | Some _ => fault w (SysCopy (fst kv))
                                | None => None
                                end)
       (map_to_list (fs w)).

(** [shutil.copytree(src, dst)]: [os.makedirs(dst)] creates [dst] and
    the directories above it that are missing; then every entry is
    copied.  A copy that fails does not stop the others: the errors are
    collected and raised at the end, with the tree copied in part. *)
Definition copytree (src dst : path) : M unit :=
  fun w =>
    let m := fs w in
    if exists_ m dst then (oserror "File exists", w)
    else if existsb (is_file m) (ancestors dst) then (oserror "Not a directory", w)
    else if too_long dst then (oserror "File name too long", w)
    else
      let copied :=
        filter (fun rn : path * node => copies w (src ++ fst rn) = true) (below src m) in
      let dirs : gmap path node :=
        gset_to_gmap Dir (list_to_set (ancestors dst)) in
      let w' := with_fs (graft dst copied (m ∪ dirs)) w in
      match copy_errors src w with
      | [] => (Ret tt, w')
      | msg :: _ => (Raise (Exception msg), w')
      end.

(** [shutil.copy2(src, dst)] of one file. *)
Definition copy2 (src dst : path) : M unit :=
  fun w =>
    match fault w (SysCopy src) with
    | Some msg => (Raise (Exception msg), w)
    | None =>
        match fs w !! src, lookup_node (fs w) dst with
        | Some (File content), Some Dir => (oserror "Is a directory", w)
        | Some (File content), _ =>
            if negb (is_dir (fs w) (parent dst))
            then (oserror "No such file or directory", w)
            else if too_long dst then (oserror "File name too long", w)
            else (Ret tt, with_fs (<[dst := File content]> (fs w)) w)
        | Some Dir, _ => (oserror "Is a directory", w)
        | None, _ => (oserror "No such file or directory", w)
        end
    end.

(** What a removal that fails leaves of the tree at [p]: the walk stops
    at the first error, and the oracle tells which entries had not been
    removed by then. *)
Definition stays (w : world) (k : path) : bool :=
  match fault w (SysRmtree k) with
  | None => false
  | Some _ => true
  end.

Definition remove_tree_partly (w : world) (p : path) (m : gmap path node)
  : gmap path node :=
  graft p (filter (fun rn : path * node => stays w (p ++ fst rn) = true) (below p m))
        (remove_tree p m).

(** [shutil.rmtree(p)] *)
Definition rmtree (p : path) : M unit :=
  fun w =>
    match fault w (SysRmtree p) with
    | Some msg => (Raise (Exception msg), with_fs (remove_tree_partly w p (fs w)) w)
    | None =>
        match fs w !! p with
        | Some Dir => (Ret tt, with_fs (remove_tree p (fs w)) w)
        | Some (File _) => (oserror "Not a directory", w)
        | None => (oserror "No such file or directory", w)
        end
    end.

(** [p.unlink()] *)
Definition unlink (p : path) : M unit :=
  fun w =>
    match fault w (SysUnlink p) with
    | Some msg => (Raise (Exception msg), w)
    | None =>
        match fs w !! p with
        | Some (File _) => (Ret tt, with_fs (delete p (fs w)) w)
        | Some Dir => (oserror "Is a directory", w)
        | None => (oserror "No such file or directory", w)
        end
    end.

(** [shutil.move(src, dst)]: into [dst] when that is a directory, onto
    [dst] otherwise.  The move is one [os.rename]; when that fails with
    an [OSError], a directory is copied with [copytree] and then
    removed with [rmtree], a file copied with [copy2] and then
    unlinked. *)
Definition shutil_move (src dst : path) : M unit :=
  fun w =>
    let m := fs w in
    if bool_decide (src = dst) && exists_ m src then (Ret tt, w)
    else
      let into := is_dir m dst in
      let real_dst := if into then dst ++ [path_name src] else dst in
      if into && exists_ m real_dst
      then (oserror "Destination path already exists", w)
      else if bad_name real_dst
      then (oserror "embedded null byte", w)
      else
        match os_rename src real_dst w with
        | (Ret _, w') => (Ret tt, w')
        | (Raise _, _) =>
            match m !! src with
            | Some Dir =>
                match under src dst with
                | Some _ => (oserror "Cannot move a directory into itself", w)
                | None => (copytree src real_dst ;; rmtree src) w
                end
            | Some (File _) => (copy2 src real_dst ;; unlink src) w
            | None => (oserror "No such file or directory", w)
            end
        end.

(** What [open] does to the text of a file: a carriage return, with
    the line feed that follows it if one does, is read as one line
    feed. *)
Fixpoint universal_newlines (s : str) : str :=
  match s with
  | [] => []
  | c :: s' =>
      if c =? 13
      then newline :: match s' with
                      | d :: s'' => if d =? newline then universal_newlines s''
                                    else universal_newlines s'
                      | [] => []
                      end
      else c :: universal_newlines s'
  end.

(** [p.read_text()] *)
Definition read_text (p : path) : M str :=
  fun w =>
    match fault w (SysRead p) with
    | Some msg => (Raise (Exception msg), w)
    | None =>
        match lookup_node (fs w) p with
        | Some (File content) => (Ret (universal_newlines content), w)
        | Some Dir => (oserror "Is a directory", w)
        | None => (oserror "No such file or directory", w)
        end
    end.

(** Text that can be encoded at all: no surrogate in it.  What else
    the encoding of the locale cannot write is for the oracle to say
    ([SysFlush]). *)
Definition encodable (s : str) : bool :=
  forallb (fun c => negb (in_range 0xD800 0xDFFF c)) s.

(** [p.write_text(content)]: the file is opened, which empties it; then
    the text is encoded as a whole and written.  When the text cannot
    be encoded the file is left empty. *)
Definition write_text (p : path) (content : str) : M unit :=
  fun w =>
    match fault w (SysWrite p) with
    | Some msg => (Raise (Exception msg), w)
    | None =>
        match lookup_node (fs w) p with
        | Some Dir => (oserror "Is a directory", w)
        | _ =>
            if negb (is_dir (fs w) (parent p))
            then (oserror "No such file or directory", w)
            else if negb (exists_ (fs w) p) && too_long p
            then (oserror "File name too long", w)
            else
              let opened := with_fs (<[p := File []]> (fs w)) w in
              if negb (encodable content)
              then (oserror "'utf-8' codec can't encode: surrogates not allowed", opened)
              else match fault w (SysFlush p) with
                   | Some msg => (Raise (Exception msg), opened)
                   | None => (Ret tt, with_fs (<[p := File content]> (fs w)) w)
                   end
        end
    end.

(** [subprocess.run(["git", "init"], check=True, capture_output=True)]:
    [git] creates [.git] and, below it, what the world's
    [git_template] holds (HEAD, config, objects, refs, ...); what is
    there already it leaves alone. *)
Definition git_init : M unit :=
  fun w =>
    match fault w SysGitInit with
    | Some msg => (Raise (Exception msg), w)
    | None =>
        (Ret tt,
         with_fs (fs w ∪ kmap (app [u ".git"]) (<[ [] := Dir ]> (git_template w))) w)
    end.

(** ** The steps of the script *)

Definition cross : str := [0x274C].            (* the error mark *)
Definition tick : str := [0x2713].             (* the check mark *)
Definition warning : str := [0x26A0; 0xFE0F].  (* the warning sign *)
Definition arrow : str := [0x2192].

Definition quoted (s : str) : str := [dq] ++ s ++ [dq].

Definition rule : str := repeat_str (u "=") 60.

Definition nonempty (s : str) : bool := negb (str_eqb s []).

(** The loop of [get_user_input] that asks for the project name.  Each
    round reads one line, so one round more than there are pending
    events is enough ([project_name_loop_fuel] below). *)
Fixpoint project_name_loop (fuel : nat) : M str :=
  match fuel with
  | O => raise (Exception (u "EOF when reading a line"))
  | S fuel' =>
      line <- input (u "Enter your project name (e.g., 'My GenAI App'): ") ;;
      let project_name := strip line in
      if nonempty project_name then ret project_name
      else (print (u "Project name cannot be empty!") ;;
            project_name_loop fuel')
  end.

Definition get_user_input : M (str * str * str * str) :=
  print rule ;;
  print (u "Python GenAI Template Initialization") ;;
  print rule ;;
  print [] ;;
  (* Project name *)
  project_name <- (fun w => project_name_loop (S (length (stdin w))) w) ;;
  (* Generate defaults *)
  let package_name := to_snake_case project_name in
  let pyproject_name := to_kebab_case project_name in
  print [] ;;
  print (u "Suggested package name (Python): " ++ package_name) ;;
  line <- input (u "Press Enter to use '" ++ package_name
                 ++ u "' or enter a different name: ") ;;
  let package_name_input := strip line in
  let package_name :=
    if nonempty package_name_input then to_snake_case package_name_input
    else package_name in
  print [] ;;
  print (u "Suggested project name (pyproject.toml): " ++ pyproject_name) ;;
  line <- input (u "Press Enter to use '" ++ pyproject_name
                 ++ u "' or enter a different name: ") ;;
  let pyproject_name_input := strip line in
  let pyproject_name :=
    if nonempty pyproject_name_input then to_kebab_case pyproject_name_input
    else pyproject_name in
  (* Author info *)
  print [] ;;
  line <- input (u "Enter your name (for pyproject.toml): ") ;;
  let author_name := if nonempty (strip line) then strip line else u "Your Name" in
  line <- input (u "Enter your email (for pyproject.toml): ") ;;
  let author_email :=
    if nonempty (strip line) then strip line else u "your.email@example.com" in
  ret (package_name, pyproject_name, author_name, author_email).

Definition rename_package (old_name new_name : str) : M bool :=
  let old_path := Path (u "src") // old_name in
  let new_path := Path (u "src") // new_name in
  found <- path_exists old_path ;;
  if negb found
  then (print (cross ++ u " Package directory not found: " ++ path_str old_path) ;;
        ret false)
  else
    taken <- path_exists new_path ;;
    if taken
    then (print (cross ++ u " Target directory already exists: " ++ path_str new_path) ;;
          ret false)
    else
      try_except
        (shutil_move old_path new_path ;;
         print (tick ++ u " Renamed package: " ++ old_name ++ u " " ++ arrow
                ++ u " " ++ new_name) ;;
         ret true)
        (fun e =>
           print (cross ++ u " Failed to rename package: " ++ e) ;;
           ret false).

(** The four patterns of [update_pyproject_toml]. *)
Definition name_pattern : pattern :=
  lits (u "name = " ++ quoted (u "template-package")).
Definition description_pattern : pattern :=
  lits (u "description = " ++ [dq]) ++ [Many Dot] ++ lits (u "template")
    ++ [Many Dot] ++ lits [dq].
Definition author_pattern : pattern :=
  lits (u "name = " ++ quoted (u "Your Name")).
Definition email_pattern : pattern :=
  lits (u "email = " ++ quoted (u "your.email@example.com")).

Definition update_pyproject_toml
    (package_name project_name author_name author_email : str) : M bool :=
  let pyproject_path := Path (u "pyproject.toml") in
  found <- path_exists pyproject_path ;;
  if negb found
  then (print (cross ++ u " pyproject.toml not found!") ;; ret false)
  else
    try_except
      (content <- read_text pyproject_path ;;
       (* Update project name *)
       content <- lift_re (re_sub false name_pattern
                             (u "name = " ++ quoted project_name) content) ;;
       (* Update description *)
       content <- lift_re (re_sub true description_pattern
                             (u "description = "
                                ++ quoted (project_name ++ u " - A GenAI application"))
                             content) ;;
       (* Update author *)
       content <- lift_re (re_sub false author_pattern
                             (u "name = " ++ quoted author_name) content) ;;
       content <- lift_re (re_sub false email_pattern
                             (u "email = " ++ quoted author_email) content) ;;
       write_text pyproject_path content ;;
       print (tick ++ u " Updated pyproject.toml") ;;
       ret true)
      (fun e =>
         print (cross ++ u " Failed to update pyproject.toml: " ++ e) ;;
         ret false).

(** The text written to [__init__.py]. *)
Definition init_content (package_name : str) : str :=
  repeat_str [dq] 3 ++ [newline]
  ++ title (replace_char underscore 32 package_name) ++ [newline]
  ++ [newline]
  ++ u "Your GenAI application package." ++ [newline]
  ++ repeat_str [dq] 3 ++ [newline]
  ++ [newline]
  ++ u "__version__ = " ++ quoted (u "0.1.0") ++ [newline]
  ++ [newline]
  ++ u "__all__ = [" ++ quoted (u "__version__") ++ u "]" ++ [newline].

Definition update_package_init (package_name : str) : M bool :=
  let init_path := Path (u "src") // package_name // u "__init__.py" in
  found <- path_exists init_path ;;
  if negb found
  then (print (warning ++ u "  Warning: " ++ path_str init_path ++ u " not found") ;;
        ret true)   (* Not critical *)
  else
    try_except
      (let content := init_content package_name in
       write_text init_path content ;;
       print (tick ++ u " Updated " ++ package_name ++ u "/__init__.py") ;;
       ret true)
      (fun e =>
         print (warning ++ u "  Warning: Failed to update __init__.py: " ++ e) ;;
         ret true).  (* Not critical *)

Definition reinit_git : M bool :=
  print [] ;;
  line <- input (u "Reinitialize git repository? (removes old history) [y/N]: ") ;;
  let response := lower (strip line) in
  if str_in response [u "y"; u "yes"]
  then
    try_except
      (let git_dir := Path (u ".git") in
       found <- path_exists git_dir ;;
       (if found
        then (rmtree git_dir ;; print (tick ++ u " Removed old .git directory"))
        else ret tt) ;;
       git_init ;;
       print (tick ++ u " Initialized new git repository") ;;
       ret true)
      (fun e =>
         print (warning ++ u "  Warning: Git reinitialization failed: " ++ e) ;;
         ret false)
  else ret true.

Definition remove_self : M unit :=
  fun w =>
    let script_path := script w in
    try_except
      (unlink script_path ;;
       print (tick ++ u " Removed initialization script: " ++ path_name script_path))
      (fun e => print (warning ++ u "  Warning: Could not remove script: " ++ e))
      w.

(** Lines 237 to 273 of [main]: the four steps and the final report. *)
Definition initialize
    (package_name project_name author_name author_email : str) : M Z :=
  print [] ;;
  print (u "Initializing template...") ;;
  print [] ;;
  (* Perform updates *)
  let success := true in
  r <- rename_package (u "template_package") package_name ;;
  let success := success && r in
  r <- update_pyproject_toml package_name project_name author_name author_email ;;
  let success := success && r in
  r <- update_package_init package_name ;;
  let success := success && r in
  r <- reinit_git ;;
  let success := success && r in
  if success
  then
    print [] ;;
    print rule ;;
    print (tick ++ u " Template initialized successfully!") ;;
    print rule ;;
    print [] ;;
    print (u "Next steps:") ;;
    print (u "  1. Run: uv venv && uv pip install -e '.[dev]'") ;;
    print (u "  2. Run: uv run pre-commit-install") ;;
    print (u "  3. Copy .env.example to .env and add your API keys") ;;
    print (u "  4. Start building your GenAI application!") ;;
    print [] ;;
    (* Remove this script *)
    line <- input (u "Remove this initialization script? [Y/n]: ") ;;
    let response := lower (strip line) in
    (if negb (str_in response [u "n"; u "no"]) then remove_self else ret tt) ;;
    ret 0%Z
  else
    print [] ;;
    print rule ;;
    print (cross ++ u " Initialization completed with errors") ;;
    print rule ;;
    print (u "Please review the errors above and fix manually if needed.") ;;
    ret 1%Z.

Definition main : M Z :=
  (* Check we're in the right directory *)
  found <- path_exists (Path (u "pyproject.toml")) ;;
  if negb found
  then
    print (cross ++ u " Error: pyproject.toml not found!") ;;
    print (u "Please run this script from the template root directory.") ;;
    ret 1%Z
  else
    (* Get user input *)
    answers <- get_user_input ;;
    let '(package_name, project_name, author_name, author_email) := answers in
    print [] ;;
    print rule ;;
    print (u "Configuration Summary:") ;;
    print rule ;;
    print (u "Package name: " ++ package_name) ;;
    print (u "Project name: " ++ project_name) ;;
    print (u "Author: " ++ author_name ++ u " <" ++ author_email ++ u ">") ;;
    print rule ;;
    print [] ;;
    line <- input (u "Proceed with these settings? [Y/n]: ") ;;
    let response := lower (strip line) in
    if str_in response [u "n"; u "no"]
    then (print (u "Aborted.") ;; ret 0%Z)
    else initialize package_name project_name author_name author_email.

(** The [if __name__ == "__main__"] block: the exit status of the process. *)
Definition run_script (w : world) : Z * world :=
  match main w with
  | (Ret code, w') => (code, w')
  | (Raise KeyboardInterrupt, w') =>
      (1%Z, snd (print ([newline; newline] ++ u "Aborted by user.") w'))
  | (Raise (Exception e), w') =>
      (1%Z, snd (print ([newline] ++ cross ++ u " Unexpected error: " ++ e) w'))
  end.

(** ** A template checkout, for the examples *)

Definition pyproject_text : str :=
  u "[project]" ++ [newline]
  ++ u "name = " ++ quoted (u "template-package") ++ [newline]
  ++ u "description = " ++ quoted (u "A Python template for GenAI apps") ++ [newline]
  ++ u "authors = [{ name = " ++ quoted (u "Your Name")
  ++ u ", email = " ++ quoted (u "your.email@example.com") ++ u " }]" ++ [newline].

Definition template_fs : gmap path node :=
  list_to_map
    [ ([u "pyproject.toml"], File pyproject_text);
      ([u "src"], Dir);
      ([u "src"; u "template_package"], Dir);
      ([u "src"; u "template_package"; u "__init__.py"], File (u "# template"));
      ([u ".git"], Dir);
      ([u ".git"; u "HEAD"], File (u "ref: refs/heads/main"));
      ([u "init_template.py"], File (u "#!/usr/bin/env python3")) ].

(** [pyproject_text] with its four fields rewritten. *)
Definition edited_text (project_name author_name author_email : str) : str :=
  u "[project]" ++ [newline]
  ++ u "name = " ++ quoted project_name ++ [newline]
  ++ u "description = " ++ quoted (project_name ++ u " - A GenAI application")
  ++ [newline]
  ++ u "authors = [{ name = " ++ quoted author_name
  ++ u ", email = " ++ quoted author_email ++ u " }]" ++ [newline].

Definition no_faults : syscall -> option str := fun _ => None.

Definition git_fails : syscall -> option str :=
  fun c => match c with
           | SysGitInit => Some (u "[Errno 2] No such file or directory: 'git'")
           | _ => None
           end.


(** An environment in which every operation on the disk fails. *)
Definition all_fail : syscall -> option str :=
  fun _ => Some (u "[Errno 13] Permission denied").

(** What [git init] writes in the examples. *)
Definition git_skeleton : gmap path node :=
  list_to_map
    [ ([u "HEAD"], File (u "ref: refs/heads/master" ++ [newline]));
      ([u "config"], File (u "[core]" ++ [newline]));
      ([u "objects"], Dir);
      ([u "refs"], Dir);
      ([u "refs"; u "heads"], Dir) ].

(** The checkout with the given lines waiting on standard input. *)
Definition checkout (lines : list str) (f : syscall -> option str) : world :=
  World template_fs (List.map Line lines) [] f [u "init_template.py"] git_skeleton.

(** [say line w]: the world [w] after [line] has been printed; nothing
    but standard output differs. *)
Definition say (line : str) (w : world) : world := with_stdout (stdout w ++ [line]) w.

(** The world in which [main] starts its four steps: [wa] is the world
    after [get_user_input], [rest] what is left on standard input once
    the confirmation has been read. *)
Definition confirmed
    (package_name project_name author_name author_email : str)
    (rest : list event) (wa : world) : world :=
  let summary :=
    [ []; rule; u "Configuration Summary:"; rule;
      u "Package name: " ++ package_name;
      u "Project name: " ++ project_name;
      u "Author: " ++ author_name ++ u " <" ++ author_email ++ u ">";
      rule; [];
      u "Proceed with these settings? [Y/n]: " ] in
  with_stdin rest (fold_left (fun w line => say line w) summary wa).

Definition says_no (line : str) : bool :=
  str_in (lower (strip line)) [u "n"; u "no"].

Definition says_yes (line : str) : bool :=
  str_in (lower (strip line)) [u "y"; u "yes"].

Definition git_warning (e : str) : str :=
  warning ++ u "  Warning: Git reinitialization failed: " ++ e.

Definition errors_report : str := cross ++ u " Initialization completed with errors".

(** The checkout of a linked worktree: [.git] is a regular file. *)
Definition git_file_fs : gmap path node :=
  <[ [u ".git"] := File (u "gitdir: ../main/.git/worktrees/template") ]>
    (delete [u ".git"; u "HEAD"] template_fs).

(** [has_prefix p s]: [s.startswith(p)] *)
Fixpoint has_prefix (p s : str) : bool :=
  match p, s with
  | [], _ => true
  | x :: p', y :: s' => (x =? y) && has_prefix p' s'
  | _ :: _, [] => false
  end.

(** ** Vocabulary of the statements *)

(** Two worlds with the same disk: the file system, the fault oracle
    and the script location agree; only the terminal may differ. *)
Definition same_disk (w w' : world) : Prop :=
  fs w' = fs w /\ fault w' = fault w /\ script w' = script w.

(** A computation is terminal-only when it touches nothing but
    standard input and output. *)
Definition terminal_only {A : Type} (m : M A) : Prop :=
  forall w, same_disk w (snd (m w)).

(** A replacement text without a backslash. *)
Definition plain (repl : str) : Prop := Forall (fun c => c <> backslash) repl.

(** [no_match_in ic p s]: the pattern matches at no position of [s]. *)
Definition no_match_in (ic : bool) (p : pattern) (s : str) : Prop :=
  forall pre post, s = pre ++ post -> match_here ic p post = None.

(** [skip ok s]: [s] without its leading [ok] characters. *)
Fixpoint skip (ok : N -> bool) (s : str) : str :=
  match s with
  | c :: s' => if ok c then skip ok s' else s
  | [] => []
  end.

(** Strings of code points below 256, where the tables are exact. *)
Definition latin1 (s : str) : Prop := Forall (fun c => c < 256) s.

(** A word character that lowercasing leaves alone. *)
Definition lower_word (c : N) : bool := is_word c && str_eqb (Unicode.lower c) [c].

Definition snake_separators : atom := Set_ false [CChar hyphen; CSpace].
Definition kebab_separators : atom := Set_ false [CChar underscore; CSpace].

(** The characters of a finished name: [to_snake_case] and
    [to_kebab_case] leave strings of them unchanged. *)
Definition snake_char (c : N) : bool :=
  lower_word c && negb (atom_matches false snake_separators c).
Definition kebab_char (c : N) : bool :=
  (lower_word c || (c =? hyphen)) && negb (atom_matches false kebab_separators c).

(** A character that neither transformer keeps or turns into a
    separator: not a word character, not a hyphen, not white space. *)
Definition dropped_char (c : N) : bool :=
  negb (is_word c) && negb (c =? hyphen) && negb (Unicode.isspace c).

(** The value that [get_user_input] takes from an answer: the stripped
    line, or [default] when that is empty. *)
Definition answer_or (default line : str) : str :=
  if nonempty (strip line) then strip line else default.

Definition blank (line : str) : Prop := strip line = [].

(** The suffixes of a string, the string itself first. *)
Fixpoint suffixes (s : str) : list str :=
  s :: match s with
       | [] => []
       | _ :: s' => suffixes s'
       end.

(** What the top level prints for an exception that reaches it. *)
Definition top_level_report (e : exn) : str :=
  match e with
  | KeyboardInterrupt => [newline; newline] ++ u "Aborted by user."
  | Exception msg => [newline] ++ cross ++ u " Unexpected error: " ++ msg
  end.

(** The world in which the first of the four steps runs. *)
Definition steps_begin
    (package_name project_name author_name author_email : str)
    (rest : list event) (wa : world) : world :=
  say [] (say (u "Initializing template...") (say []
    (confirmed package_name project_name author_name author_email rest wa))).

Definition success_report : str := tick ++ u " Template initialized successfully!".

(** [returns P m]: whenever [m] returns a value, the value satisfies [P]. *)
Definition returns {A : Type} (P : A -> Prop) (m : M A) : Prop :=
  forall w a w', m w = (Ret a, w') -> P a.

(** The new key of an entry when [src] becomes [dst]. *)
Definition moved_key (src dst k : path) : path :=
  match under src k with
  | Some r => dst ++ r
  | None => k
  end.

(** [fails_at ic p s]: the pattern does not match at the start of [s]. *)
Definition fails_at (ic : bool) (p : pattern) (s : str) : bool :=
  match match_here ic p s with
  | None => true
  | Some _ => false
  end.

(** An operation on the disk: it returns or raises an [Exception], and
    leaves a world that differs in the file system only. *)
Definition disk_only (r : outcome unit * world) (w : world) (m' : gmap path node) : Prop :=
  snd r = with_fs m' w /\ (fst r = Ret tt \/ exists e, fst r = Raise (Exception e)).

(** The four substitutions of [update_pyproject_toml], one after the
    other: [None] when the library rejects a replacement template. *)
Definition substitutions (project_name author_name author_email content : str)
  : option str :=
  match re_sub false name_pattern (u "name = " ++ quoted project_name) content with
  | None => None
  | Some content =>
      match re_sub true description_pattern
              (u "description = " ++ quoted (project_name ++ u " - A GenAI application"))
              content with
      | None => None
      | Some content =>
          match re_sub false author_pattern (u "name = " ++ quoted author_name)
                  content with
          | None => None
          | Some content =>
              re_sub false email_pattern (u "email = " ++ quoted author_email) content
          end
      end
  end.

(** The text that the four substitutions make of [content]. *)
Definition edit_toml (project_name author_name author_email content : str) : str :=
  let content :=
    re_sub_plain false name_pattern (u "name = " ++ quoted project_name) content in
  let content :=
    re_sub_plain true description_pattern
      (u "description = " ++ quoted (project_name ++ u " - A GenAI application"))
      content in
  let content :=
    re_sub_plain false author_pattern (u "name = " ++ quoted author_name) content in
  re_sub_plain false email_pattern (u "email = " ++ quoted author_email) content.

(** * Properties *)

Arguments u : simpl never.
Arguments Path : simpl never.
Arguments joinpath : simpl never.
Arguments path_str : simpl never.

(** ** Running a computation step by step *)

Lemma run_bind {A B : Type} (m : M A) (k : A -> M B) (w : world) :
  bind m k w = match m w with
               | (Ret a, w') => k a w'
               | (Raise e, w') => (Raise e, w')
               end.
Proof. reflexivity. Qed.

Lemma run_ret {A : Type} (a : A) (w : world) : ret a w = (Ret a, w).
Proof. reflexivity. Qed.

Lemma run_print (line : str) (w : world) : print line w = (Ret tt, say line w).
Proof. reflexivity. Qed.


(** The walk stops with [ENAMETOOLONG] only at a part that is too long. *)
Lemma walk_too_long_part (m : gmap path node) (seen rest : path) :
  walk_too_long m seen rest = true ->
  existsb (fun part => name_max <? byte_length part) rest = true.
Proof.
  revert seen. induction rest as [|part rest IH]; intros seen; cbn [walk_too_long existsb].
  - discriminate.
  - destruct (lookup_node m (seen ++ [part])) as [[c|]|].
    + discriminate.
    + intros H. rewrite (IH _ H). apply orb_true_r.
    + intros ->. reflexivity.
Qed.

Lemma stat_fits (m : gmap path node) (p : path) :
  too_long p = false -> stat_too_long m p = false.
Proof.
  unfold too_long, stat_too_long. intros H.
  apply orb_false_iff in H. destruct H as [Hparts Hpath].
  rewrite Hpath. cbn [orb].
  destruct (walk_too_long m [] p) eqn:E; [| reflexivity].
  apply walk_too_long_part in E. congruence.
Qed.

(** A path that is not too long can be looked up. *)
Lemma run_path_exists (p : path) (w : world) :
  too_long p = false -> path_exists p w = (Ret (exists_ (fs w) p), w).
Proof.
  intros H. unfold path_exists. rewrite (stat_fits _ _ H).
  destruct (exists_ (fs w) p), (bad_name p); reflexivity.
Qed.

Lemma run_path_exists_pyproject (w : world) :
  path_exists (Path (u "pyproject.toml")) w
  = (Ret (exists_ (fs w) (Path (u "pyproject.toml"))), w).
Proof. apply run_path_exists. vm_compute. reflexivity. Qed.

Lemma run_path_exists_git (w : world) :
  path_exists (Path (u ".git")) w = (Ret (exists_ (fs w) (Path (u ".git"))), w).
Proof. apply run_path_exists. vm_compute. reflexivity. Qed.

Lemma run_input (prompt line : str) (rest : list event) (w : world) :
  stdin w = Line line :: rest ->
  input prompt w = (Ret line, with_stdin rest (say prompt w)).
Proof. intros H. unfold input. rewrite H. reflexivity. Qed.

Lemma run_try_except {A : Type} (body : M A) (handler : str -> M A) (w : world) :
  try_except body handler w
  = match body w with
    | (Raise (Exception msg), w') => handler msg w'
    | r => r
    end.
Proof. reflexivity. Qed.

Ltac run :=
  repeat (first [ rewrite run_bind | rewrite run_ret | rewrite run_print
                | rewrite run_path_exists_pyproject | rewrite run_path_exists_git
                | rewrite run_try_except ];
          cbv beta iota).

(** ** The regular-expression engine *)

(** A match leaves a suffix of the string. *)
Lemma star_then_suffix (ok : N -> bool) (k : str -> option str) (s rest : str) :
  (forall s' r, k s' = Some r -> exists pre, s' = pre ++ r) ->
  star_then ok k s = Some rest -> exists pre, s = pre ++ rest.
Proof.
  intros Hk. induction s as [|c s IH]; cbn [star_then]; intros H.
  - apply Hk. exact H.
  - destruct (ok c); [| apply Hk; exact H].
    destruct (star_then ok k s) as [r|] eqn:E.
    + inversion H; subst r. destruct (IH eq_refl) as [pre ->].
      exists (c :: pre). reflexivity.
    + apply Hk. exact H.
Qed.

Lemma match_here_suffix (ic : bool) (p : pattern) (s rest : str) :
  match_here ic p s = Some rest -> exists pre, s = pre ++ rest.
Proof.
  revert s rest. induction p as [|[a|a|a] p IH]; intros s rest; cbn [match_here].
  - intros [= ->]. exists []. reflexivity.
  - destruct s as [|c s]; [discriminate |].
    destruct (atom_matches ic a c); [| discriminate].
    intros H. destruct (IH _ _ H) as [pre ->]. exists (c :: pre). reflexivity.
  - destruct s as [|c s]; [discriminate |].
    destruct (atom_matches ic a c); [| discriminate].
    intros H. destruct (star_then_suffix _ _ _ _ (IH) H) as [pre ->].
    exists (c :: pre). reflexivity.
  - apply star_then_suffix. exact IH.
Qed.

Lemma match_here_length (ic : bool) (p : pattern) (s rest : str) :
  match_here ic p s = Some rest -> (length rest <= length s)%nat.
Proof.
  intros H. destruct (match_here_suffix _ _ _ _ H) as [pre ->].
  rewrite length_app. lia.
Qed.

(** The scan never runs out of fuel: any two amounts above the length
    of the string give the same result. *)
Lemma sub_loop_fuel (ic : bool) (p : pattern) (t : list piece) (n m : nat) (s : str) :
  (length s < n)%nat -> (length s < m)%nat ->
  sub_loop n ic p t s = sub_loop m ic p t s.
Proof.
  revert m s. induction n as [|n IH]; intros m s Hn Hm; [lia |].
  destruct m as [|m]; [lia |].
  cbn [sub_loop].
  destruct (match_here ic p s) as [rest|] eqn:E.
  - pose proof (match_here_length _ _ _ _ E) as Hlen.
    destruct (length s - length rest)%nat as [|k] eqn:Hk.
    + destruct s as [|c s]; [reflexivity |].
      rewrite (IH m s) by (cbn [length] in *; lia). reflexivity.
    + rewrite (IH m rest) by lia. reflexivity.
  - destruct s as [|c s]; [reflexivity |].
    rewrite (IH m s) by (cbn [length] in *; lia). reflexivity.
Qed.

(** The equation that [re.sub] satisfies. *)
Lemma re_sub_with_eq (ic : bool) (p : pattern) (t : list piece) (s : str) :
  re_sub_with ic p t s
  = match match_here ic p s with
    | Some rest =>
        match (length s - length rest)%nat, s with
        | O, c :: s' => expand t [] ++ c :: re_sub_with ic p t s'
        | O, [] => expand t []
        | n, _ => expand t (take n s) ++ re_sub_with ic p t rest
        end
    | None =>
        match s with
        | c :: s' => c :: re_sub_with ic p t s'
        | [] => []
        end
    end.
Proof.
  unfold re_sub_with. cbn [sub_loop].
  destruct (match_here ic p s) as [rest|] eqn:E.
  - pose proof (match_here_length _ _ _ _ E) as Hlen.
    destruct (length s - length rest)%nat as [|k] eqn:Hk.
    + destruct s as [|c s]; [reflexivity |].
      rewrite (sub_loop_fuel ic p t (length (c :: s)) (S (length s)) s)
        by (cbn [length]; lia).
      reflexivity.
    + rewrite (sub_loop_fuel ic p t (length s) (S (length rest)) rest) by lia.
      reflexivity.
  - destruct s as [|c s]; [reflexivity |].
    rewrite (sub_loop_fuel ic p t (length (c :: s)) (S (length s)) s)
      by (cbn [length]; lia).
    reflexivity.
Qed.

(** *** Replacement text without a backslash *)

Lemma parse_template_plain (repl : str) :
  plain repl -> parse_template None repl = Some (List.map Chr repl).
Proof.
  induction 1 as [|c repl Hc _ IH]; [reflexivity |].
  cbn [parse_template List.map].
  apply N.eqb_neq in Hc. rewrite Hc. cbn [negb]. rewrite IH. reflexivity.
Qed.

Lemma expand_plain (repl m : str) : expand (List.map Chr repl) m = repl.
Proof.
  unfold expand. induction repl as [|c repl IH]; [reflexivity |].
  cbn [List.map flat_map app]. rewrite IH. reflexivity.
Qed.

(** [re_sub_plain] is [re.sub] for a replacement without a backslash. *)
Lemma re_sub_plain_spec (ic : bool) (p : pattern) (repl s : str) :
  plain repl -> re_sub ic p repl s = Some (re_sub_plain ic p repl s).
Proof.
  intros H. unfold re_sub, re_sub_plain. rewrite (parse_template_plain _ H).
  reflexivity.
Qed.

Lemma plain_u_underscore : plain (u "_").
Proof. repeat constructor; discriminate. Qed.

Lemma plain_u_hyphen : plain (u "-").
Proof. repeat constructor; discriminate. Qed.

(** The three replacements of the name transformers are such texts, so
    that [re_sub_plain] is [re.sub] there. *)
Lemma re_sub_plain_transformers (ic : bool) (p : pattern) (s : str) :
  re_sub ic p (u "_") s = Some (re_sub_plain ic p (u "_") s)
  /\ re_sub ic p (u "-") s = Some (re_sub_plain ic p (u "-") s)
  /\ re_sub ic p (u "") s = Some (re_sub_plain ic p (u "") s).
Proof.
  split; [| split]; apply re_sub_plain_spec.
  - exact plain_u_underscore.
  - exact plain_u_hyphen.
  - constructor.
Qed.

(** *** Where the pattern is absent, and where it is present *)

Lemma no_match_in_tail (ic : bool) (p : pattern) (c : N) (s : str) :
  no_match_in ic p (c :: s) -> no_match_in ic p s.
Proof. intros H pre post ->. apply (H (c :: pre)). reflexivity. Qed.

(** A substitution whose pattern is absent returns its input. *)
Lemma re_sub_with_absent (ic : bool) (p : pattern) (t : list piece) (s : str) :
  no_match_in ic p s -> re_sub_with ic p t s = s.
Proof.
  induction s as [|c s IH]; intros H; rewrite re_sub_with_eq.
  - rewrite (H [] []) by reflexivity. reflexivity.
  - rewrite (H [] (c :: s)) by reflexivity.
    rewrite IH by (eapply no_match_in_tail; exact H). reflexivity.
Qed.

(** A substitution rewrites the first match: if the pattern matches at
    no position that starts within [pre], and at the end of [pre] it
    matches the non-empty [m], the result is [pre], the replacement, and
    the substitution of what follows [m]. *)
Lemma re_sub_with_present (ic : bool) (p : pattern) (t : list piece) (pre m post : str) :
  (forall a b, pre = a ++ b -> b <> [] -> match_here ic p (b ++ m ++ post) = None) ->
  match_here ic p (m ++ post) = Some post ->
  m <> [] ->
  re_sub_with ic p t (pre ++ m ++ post)
  = pre ++ expand t m ++ re_sub_with ic p t post.
Proof.
  intros Hpre Hm Hne. induction pre as [|c pre IH].
  - cbn [app]. rewrite re_sub_with_eq, Hm.
    assert (Hlen : (length (m ++ post) - length post)%nat = length m)
      by (rewrite length_app; lia).
    rewrite Hlen.
    destruct m as [|x m]; [congruence |].
    cbn [length].
    change (S (length m)) with (length (x :: m)).
    rewrite take_app_length. reflexivity.
  - assert (E : match_here ic p ((c :: pre) ++ m ++ post) = None)
      by (apply (Hpre [] (c :: pre) eq_refl); discriminate).
    cbn [app] in *. rewrite re_sub_with_eq, E.
    rewrite IH; [reflexivity |].
    intros a b -> Hb. apply (Hpre (c :: a) b); [reflexivity | exact Hb].
Qed.

(** *** The two shapes of pattern that the name transformers use *)

(** A one-character pattern with an empty replacement is a filter. *)
Lemma re_sub_one_filter (ic : bool) (a : atom) (s : str) :
  re_sub_plain ic [One a] [] s = List.filter (fun c => negb (atom_matches ic a c)) s.
Proof.
  unfold re_sub_plain. cbn [List.map].
  induction s as [|c s IH]; rewrite re_sub_with_eq; cbn [match_here List.filter].
  - reflexivity.
  - destruct (atom_matches ic a c); cbn [negb].
    + replace (length (c :: s) - length s)%nat with 1%nat by (cbn [length]; lia).
      cbn [expand flat_map app]. exact IH.
    + rewrite IH. reflexivity.
Qed.

Lemma star_then_skip (ok : N -> bool) (s : str) :
  star_then ok Some s = Some (skip ok s).
Proof.
  induction s as [|c s IH]; cbn [star_then skip]; [reflexivity |].
  destruct (ok c); [rewrite IH |]; reflexivity.
Qed.

Lemma skip_length (ok : N -> bool) (s : str) : (length (skip ok s) <= length s)%nat.
Proof.
  induction s as [|c s IH]; cbn [skip length]; [lia |].
  destruct (ok c); cbn [length]; lia.
Qed.

Lemma skip_incl (ok : N -> bool) (s : str) (c : N) : In c (skip ok s) -> In c s.
Proof.
  induction s as [|x s IH]; cbn [skip]; [tauto |].
  destruct (ok x); cbn [In]; tauto.
Qed.

Section PlusPattern.

Variables (ic : bool) (a : atom) (repl : str).

Let hit (c : N) : bool := atom_matches ic a c.

Lemma re_sub_plus_nil : re_sub_plain ic [Plus a] repl [] = [].
Proof. reflexivity. Qed.

Lemma re_sub_plus_cons (c : N) (s : str) :
  re_sub_plain ic [Plus a] repl (c :: s)
  = if hit c then repl ++ re_sub_plain ic [Plus a] repl (skip hit s)
    else c :: re_sub_plain ic [Plus a] repl s.
Proof.
  unfold re_sub_plain, hit. rewrite re_sub_with_eq. cbn [match_here].
  destruct (atom_matches ic a c); [| reflexivity].
  change (match_here ic []) with (@Some str). rewrite star_then_skip.
  pose proof (skip_length (atom_matches ic a) s) as Hlen.
  destruct (length (c :: s) - length (skip (atom_matches ic a) s))%nat eqn:E;
    [cbn [length] in E; lia |].
  rewrite expand_plain. reflexivity.
Qed.

(** Every character of the result is a character of the input that
    the set does not match, or a character of the replacement. *)
Lemma re_sub_plus_Forall (Q : N -> Prop) (s : str) :
  (forall c, In c s -> hit c = false -> Q c) ->
  Forall Q repl ->
  Forall Q (re_sub_plain ic [Plus a] repl s).
Proof.
  intros Hs Hrepl.
  remember (length s) as n eqn:Hn. revert s Hn Hs.
  induction n as [n IH] using lt_wf_ind. intros s Hn Hs.
  destruct s as [|c s]; [constructor |].
  rewrite re_sub_plus_cons. destruct (hit c) eqn:Hc.
  - apply List.Forall_app. split; [exact Hrepl |].
    pose proof (skip_length hit s) as Hlen.
    apply (IH (length (skip hit s))); [cbn [length] in Hn; lia | reflexivity |].
    intros x Hx. apply Hs. right. eapply skip_incl. exact Hx.
  - constructor; [apply Hs; [left; reflexivity | exact Hc] |].
    apply (IH (length s)); [cbn [length] in Hn; lia | reflexivity |].
    intros x Hx. apply Hs. right. exact Hx.
Qed.

(** Where the set matches no character, nothing is replaced. *)
Lemma re_sub_plus_id (s : str) :
  Forall (fun c => hit c = false) s -> re_sub_plain ic [Plus a] repl s = s.
Proof.
  intros H. apply re_sub_with_absent. intros pre post ->.
  apply List.Forall_app in H. destruct H as [_ H].
  destruct post as [|c post]; [reflexivity |].
  cbn [match_here]. inversion H as [|? ? Hc _]; subst.
  unfold hit in Hc. rewrite Hc. reflexivity.
Qed.

End PlusPattern.

(** ** The name transformers: the worked example *)

(** C2: for the input ["My GenAI App"], [to_snake_case] returns exactly
    ["my_genai_app"] and [to_kebab_case] returns exactly ["my-genai-app"]. *)
Theorem my_genai_app_names :
  to_snake_case (u "My GenAI App") = u "my_genai_app"
  /\ to_kebab_case (u "My GenAI App") = u "my-genai-app".
Proof. split; vm_compute; reflexivity. Qed.

(** ** The name transformers on Latin-1 input *)

Lemma str_eqb_eq (a b : str) : str_eqb a b = true <-> a = b.
Proof.
  revert b. induction a as [|x a IH]; intros [|y b]; cbn [str_eqb];
    try (split; (discriminate || reflexivity)).
  rewrite andb_true_iff, N.eqb_eq, IH. split; [intros [-> ->]; reflexivity |].
  intros [= -> ->]. split; reflexivity.
Qed.

(** A property checked on the 256 code points holds below 256. *)
Lemma below_256 (P : N -> bool) :
  forallb P (List.map N.of_nat (seq 0 256)) = true ->
  forall c, c < 256 -> P c = true.
Proof.
  intros H c Hc. rewrite List.forallb_forall in H. apply H.
  apply List.in_map_iff. exists (N.to_nat c). split; [apply N2Nat.id |].
  apply List.in_seq. lia.
Qed.

Lemma lower_of_word_snake (c : N) :
  c < 256 -> is_word c = true -> forallb snake_char (Unicode.lower c) = true.
Proof.
  intros Hc Hw.
  pose proof (below_256
    (fun c => negb (is_word c) || forallb snake_char (Unicode.lower c))
    ltac:(vm_compute; reflexivity) c Hc) as H.
  cbv beta in H. rewrite Hw in H. exact H.
Qed.

Lemma lower_of_word_kebab (c : N) :
  c < 256 -> (is_word c || (c =? hyphen)) = true ->
  atom_matches false kebab_separators c = false ->
  forallb kebab_char (Unicode.lower c) = true.
Proof.
  intros Hc Hw Hsep.
  pose proof (below_256
    (fun c => negb (is_word c || (c =? hyphen))
              || atom_matches false kebab_separators c
              || forallb kebab_char (Unicode.lower c))
    ltac:(vm_compute; reflexivity) c Hc) as H.
  cbv beta in H. rewrite Hw, Hsep in H. exact H.
Qed.

Lemma lower_fixed (s : str) :
  Forall (fun c => Unicode.lower c = [c]) s -> lower s = s.
Proof.
  unfold lower. induction 1 as [|c s Hc _ IH]; [reflexivity |].
  cbn [flat_map]. rewrite Hc, IH. reflexivity.
Qed.

Lemma lower_Forall (Q : N -> Prop) (s : str) :
  Forall (fun c => Forall Q (Unicode.lower c)) s -> Forall Q (lower s).
Proof.
  unfold lower. induction 1 as [|c s Hc _ IH]; [constructor |].
  cbn [flat_map]. apply List.Forall_app. split; assumption.
Qed.

Lemma filter_id (f : N -> bool) (s : str) :
  Forall (fun c => f c = true) s -> List.filter f s = s.
Proof.
  induction 1 as [|c s Hc _ IH]; [reflexivity |].
  cbn [List.filter]. rewrite Hc, IH. reflexivity.
Qed.

Lemma keeps_word (c : N) :
  negb (atom_matches false (Set_ true [CWord]) c) = is_word c.
Proof. cbn. destruct (is_word c); reflexivity. Qed.

Lemma keeps_word_or_hyphen (c : N) :
  negb (atom_matches false (Set_ true [CWord; CChar hyphen]) c)
  = is_word c || (c =? hyphen).
Proof. cbn. destruct (is_word c), (c =? hyphen); reflexivity. Qed.

Lemma filter_ext_str (f g : N -> bool) (s : str) :
  (forall c, f c = g c) -> List.filter f s = List.filter g s.
Proof.
  intros H. induction s as [|c s IH]; [reflexivity |].
  cbn [List.filter]. rewrite H, IH. reflexivity.
Qed.

(** On Latin-1 input, [to_snake_case] yields lowercase word characters
    (the underscore is one), none of them a separator. *)
Lemma to_snake_case_chars (s : str) :
  latin1 s -> Forall (fun c => snake_char c = true) (to_snake_case s).
Proof.
  intros Hs. unfold to_snake_case.
  assert (H1 : Forall (fun c => c < 256)
                 (re_sub_plain false [Plus snake_separators] (u "_") s)).
  { apply re_sub_plus_Forall; [| repeat constructor].
    intros c Hc _. unfold latin1 in Hs. rewrite List.Forall_forall in Hs. apply Hs, Hc. }
  rewrite List.Forall_forall in H1.
  change (u "") with (@nil N). rewrite re_sub_one_filter.
  rewrite (filter_ext_str _ is_word) by exact keeps_word.
  apply lower_Forall. apply List.Forall_forall. intros c Hc.
  apply List.filter_In in Hc. destruct Hc as [Hc Hw].
  apply List.Forall_forall. apply List.forallb_forall.
  apply lower_of_word_snake; [apply H1, Hc | exact Hw].
Qed.

(** A string of finished characters is a fixed point of [to_snake_case]. *)
Lemma to_snake_case_fixed (s : str) :
  Forall (fun c => snake_char c = true) s -> to_snake_case s = s.
Proof.
  intros Hs. unfold to_snake_case.
  assert (H : Forall (fun c => is_word c = true /\ Unicode.lower c = [c]
                       /\ atom_matches false snake_separators c = false) s).
  { eapply List.Forall_impl; [| exact Hs]. intros c Hc. unfold snake_char, lower_word in Hc.
    rewrite !andb_true_iff, negb_true_iff, str_eqb_eq in Hc. tauto. }
  rewrite re_sub_plus_id by (eapply List.Forall_impl; [| exact H]; cbv beta; tauto).
  change (u "") with (@nil N). rewrite re_sub_one_filter.
  rewrite (filter_ext_str _ is_word) by exact keeps_word.
  rewrite filter_id by (eapply List.Forall_impl; [| exact H]; cbv beta; tauto).
  apply lower_fixed. eapply List.Forall_impl; [| exact H]. cbv beta. tauto.
Qed.

Lemma to_kebab_case_chars (s : str) :
  latin1 s -> Forall (fun c => kebab_char c = true) (to_kebab_case s).
Proof.
  intros Hs. unfold to_kebab_case.
  assert (H1 : Forall (fun c => c < 256 /\ atom_matches false kebab_separators c = false)
                 (re_sub_plain false [Plus kebab_separators] (u "-") s)).
  { apply re_sub_plus_Forall; [| repeat constructor].
    intros c Hc Hsep. split; [| exact Hsep].
    unfold latin1 in Hs. rewrite List.Forall_forall in Hs. apply Hs, Hc. }
  rewrite List.Forall_forall in H1.
  change (u "") with (@nil N). rewrite re_sub_one_filter.
  rewrite (filter_ext_str _ (fun c => is_word c || (c =? hyphen)))
    by exact keeps_word_or_hyphen.
  apply lower_Forall. apply List.Forall_forall. intros c Hc.
  apply List.filter_In in Hc. destruct Hc as [Hc Hw].
  apply List.Forall_forall. apply List.forallb_forall.
  destruct (H1 c Hc) as [Hlt Hsep].
  apply lower_of_word_kebab; assumption.
Qed.

Lemma to_kebab_case_fixed (s : str) :
  Forall (fun c => kebab_char c = true) s -> to_kebab_case s = s.
Proof.
  intros Hs. unfold to_kebab_case.
  assert (H : Forall (fun c => (is_word c || (c =? hyphen)) = true
                       /\ Unicode.lower c = [c]
                       /\ atom_matches false kebab_separators c = false) s).
  { eapply List.Forall_impl; [| exact Hs]. intros c Hc. unfold kebab_char, lower_word in Hc.
    rewrite andb_true_iff, negb_true_iff, orb_true_iff, andb_true_iff, str_eqb_eq in Hc.
    destruct Hc as [[[Hw Hl] | Hh] Hsep].
    - rewrite Hw. auto.
    - apply N.eqb_eq in Hh. subst c. rewrite orb_true_r. auto. }
  rewrite re_sub_plus_id by (eapply List.Forall_impl; [| exact H]; cbv beta; tauto).
  change (u "") with (@nil N). rewrite re_sub_one_filter.
  rewrite (filter_ext_str _ (fun c => is_word c || (c =? hyphen)))
    by exact keeps_word_or_hyphen.
  rewrite filter_id by (eapply List.Forall_impl; [| exact H]; cbv beta; tauto).
  apply lower_fixed. eapply List.Forall_impl; [| exact H]. cbv beta. tauto.
Qed.

(** On Latin-1 input both transformers are idempotent. *)
Lemma transformers_idempotent_latin1 (s : str) :
  latin1 s ->
  to_snake_case (to_snake_case s) = to_snake_case s
  /\ to_kebab_case (to_kebab_case s) = to_kebab_case s.
Proof.
  intros Hs. split.
  - apply to_snake_case_fixed, to_snake_case_chars, Hs.
  - apply to_kebab_case_fixed, to_kebab_case_chars, Hs.
Qed.

(** On Latin-1 input the output of [to_snake_case] consists of
    lowercase word characters (the underscore among them), that of
    [to_kebab_case] of lowercase word characters and hyphens. *)
Lemma transformers_charset_latin1 (s : str) :
  latin1 s ->
  Forall (fun c => lower_word c = true) (to_snake_case s)
  /\ Forall (fun c => lower_word c = true \/ c = hyphen) (to_kebab_case s).
Proof.
  intros Hs. split.
  - eapply List.Forall_impl; [| apply to_snake_case_chars, Hs].
    intros c Hc. unfold snake_char in Hc. apply andb_true_iff in Hc. tauto.
  - eapply List.Forall_impl; [| apply to_kebab_case_chars, Hs].
    intros c Hc. unfold kebab_char in Hc.
    rewrite andb_true_iff, orb_true_iff, N.eqb_eq in Hc. tauto.
Qed.

(** ** The name transformers beyond Latin-1 *)

(** C3, at the input where the code departs from it: the name
    ["İstanbul App"] starts with U+0130, whose lowercase is [i] followed
    by the combining dot U+0307.  The dot is produced after the filter
    has run, so a second pass removes it: neither transformer is
    idempotent here. *)
Theorem dotted_I_not_idempotent :
  let name := [0x130] ++ u "stanbul App" in
  to_snake_case name = [0x69; 0x307] ++ u "stanbul_app"
  /\ to_snake_case (to_snake_case name) = u "istanbul_app"
  /\ to_kebab_case name = [0x69; 0x307] ++ u "stanbul-app"
  /\ to_kebab_case (to_kebab_case name) = u "istanbul-app".
Proof. vm_compute. repeat split; reflexivity. Qed.

(** C4, at the same input: the output of both transformers contains
    U+0307, which is neither a word character nor a separator. *)
Theorem dotted_I_leaves_combining_mark :
  let name := [0x130] ++ u "stanbul App" in
  In 0x307 (to_snake_case name)
  /\ In 0x307 (to_kebab_case name)
  /\ is_word 0x307 = false
  /\ 0x307 <> underscore /\ 0x307 <> hyphen.
Proof. vm_compute. repeat split; (discriminate || tauto). Qed.

(** ** The directory-rename step *)






(** ** The config editor *)

(** C9: [update_pyproject_toml] does not depend on its [package_name]
    argument: two calls that differ only there leave the same world
    and return the same flag. *)
Theorem update_pyproject_toml_ignores_package_name
    (package_name package_name' project_name author_name author_email : str)
    (w : world) :
  update_pyproject_toml package_name project_name author_name author_email w
  = update_pyproject_toml package_name' project_name author_name author_email w.
Proof. reflexivity. Qed.

(** *** Replacement templates *)

(** C6, at the inputs where the code departs from it.  In the template
    checkout all four placeholders are present.  With an author name
    free of backslashes the four fields are rewritten.  With the author
    name [AC\DC] the library rejects the replacement template: the step
    reports an error, returns [False] and rewrites no field at all.
    With [Ann\nLee] the field receives a line break, not the name that
    was entered. *)
Theorem backslash_in_author_name :
  let w := checkout [] no_faults in
  let edit author :=
    update_pyproject_toml (u "my_genai_app") (u "my-genai-app") author
      (u "angus@example.com") w in
  let toml_after author := fs (snd (edit author)) !! Path (u "pyproject.toml") in
  (fst (edit (u "Angus Young")) = Ret true
   /\ toml_after (u "Angus Young")
      = Some (File (edited_text (u "my-genai-app") (u "Angus Young")
                      (u "angus@example.com"))))
  /\ (fst (edit (u "AC\DC")) = Ret false
      /\ toml_after (u "AC\DC") = Some (File pyproject_text)
      /\ exists e, stdout (snd (edit (u "AC\DC")))
                   = [cross ++ u " Failed to update pyproject.toml: " ++ e])
  /\ (fst (edit (u "Ann\nLee")) = Ret true
      /\ toml_after (u "Ann\nLee")
         = Some (File (edited_text (u "my-genai-app") (u "Ann" ++ [newline] ++ u "Lee")
                         (u "angus@example.com")))).
Proof.
  vm_compute. repeat split; try reflexivity.
  eexists. reflexivity.
Qed.

(** *** Values without a backslash

    For a project name, author name and e-mail address free of
    backslashes the editor does what the specification says of it. *)

Lemma plain_app (a b : str) : plain a -> plain b -> plain (a ++ b).
Proof. intros Ha Hb. apply List.Forall_app. split; assumption. Qed.

Lemma plain_quoted (v : str) : plain v -> plain (quoted v).
Proof.
  intros H. unfold quoted.
  repeat apply plain_app; try exact H; repeat constructor; discriminate.
Qed.

Ltac plain_const := vm_compute; repeat constructor; discriminate.

(** A field whose pattern is absent is left as it is, without error. *)
Lemma field_unchanged_when_absent (ic : bool) (p : pattern) (repl s : str) :
  plain repl -> no_match_in ic p s -> re_sub ic p repl s = Some s.
Proof.
  intros Hrepl Habs. rewrite re_sub_plain_spec by exact Hrepl.
  unfold re_sub_plain. rewrite re_sub_with_absent by exact Habs. reflexivity.
Qed.

(** A field whose pattern is present is rewritten with the value: the
    first match [m] is replaced by the replacement text. *)
Lemma field_rewritten_when_present
    (ic : bool) (p : pattern) (repl pre m post : str) :
  plain repl ->
  (forall a b, pre = a ++ b -> b <> [] -> match_here ic p (b ++ m ++ post) = None) ->
  match_here ic p (m ++ post) = Some post ->
  m <> [] ->
  re_sub ic p repl (pre ++ m ++ post)
  = Some (pre ++ repl ++ re_sub_plain ic p repl post).
Proof.
  intros Hrepl Hpre Hm Hne. rewrite re_sub_plain_spec by exact Hrepl.
  unfold re_sub_plain. rewrite re_sub_with_present by assumption.
  rewrite expand_plain. reflexivity.
Qed.

(** A pattern without metacharacters matches its own text. *)
Lemma match_here_lits (m post : str) : match_here false (lits m) (m ++ post) = Some post.
Proof.
  induction m as [|c m IH]; [reflexivity |].
  cbn [lits List.map app match_here atom_matches]. rewrite N.eqb_refl. exact IH.
Qed.

Lemma update_pyproject_toml_plain
    (package_name project_name author_name author_email content : str) (w : world) :
  plain project_name -> plain author_name -> plain author_email ->
  fs w !! Path (u "pyproject.toml") = Some (File content) ->
  fault w (SysRead (Path (u "pyproject.toml"))) = None ->
  fault w (SysWrite (Path (u "pyproject.toml"))) = None ->
  fault w (SysFlush (Path (u "pyproject.toml"))) = None ->
  encodable (edit_toml project_name author_name author_email
               (universal_newlines content)) = true ->
  update_pyproject_toml package_name project_name author_name author_email w
  = (Ret true,
     say (tick ++ u " Updated pyproject.toml")
       (with_fs (<[Path (u "pyproject.toml")
                   := File (edit_toml project_name author_name author_email
                              (universal_newlines content))]>
                   (fs w)) w)).
Proof.
  intros Hp Ha He Hfile Hread Hwrite Hflush Henc.
  assert (Hnode : lookup_node (fs w) (Path (u "pyproject.toml")) = Some (File content))
    by exact Hfile.
  assert (Hex : exists_ (fs w) (Path (u "pyproject.toml")) = true)
    by (unfold exists_; rewrite Hnode; reflexivity).
  unfold update_pyproject_toml. run.
  rewrite Hex. cbn [negb]. run.
  unfold read_text at 1. rewrite Hread, Hnode. run.
  do 4 (rewrite re_sub_plain_spec
          by (repeat apply plain_app; try apply plain_quoted;
              repeat apply plain_app; try assumption; plain_const);
        cbn [lift_re]; run).
  unfold write_text. rewrite Hwrite, Hnode, Hex.
  change (is_dir (fs w) (parent (Path (u "pyproject.toml")))) with true.
  cbn [negb andb]. fold (edit_toml project_name author_name author_email
                           (universal_newlines content)).
  unfold edit_toml in Henc |- *. rewrite Henc, Hflush.
  reflexivity.
Qed.

(** ** The package-marker writer *)





(** ** Terminal-only computations *)

Lemma same_disk_refl (w : world) : same_disk w w.
Proof. repeat split. Qed.

Lemma same_disk_trans (w1 w2 w3 : world) :
  same_disk w1 w2 -> same_disk w2 w3 -> same_disk w1 w3.
Proof. unfold same_disk. intros (? & ? & ?) (? & ? & ?). repeat split; congruence. Qed.

Lemma terminal_only_ret {A : Type} (a : A) : terminal_only (ret a).
Proof. intros w. apply same_disk_refl. Qed.

Lemma terminal_only_raise {A : Type} (e : exn) : terminal_only (@raise A e).
Proof. intros w. apply same_disk_refl. Qed.

Lemma terminal_only_print (s : str) : terminal_only (print s).
Proof. intros w. repeat split. Qed.

Lemma terminal_only_input (prompt : str) : terminal_only (input prompt).
Proof.
  intros w. unfold input.
  destruct (stdin w) as [|[line|] rest]; repeat split.
Qed.

Lemma terminal_only_bind {A B : Type} (m : M A) (k : A -> M B) :
  terminal_only m -> (forall a, terminal_only (k a)) -> terminal_only (bind m k).
Proof.
  intros Hm Hk w. unfold bind.
  specialize (Hm w). destruct (m w) as [[a|e] w']; cbn [snd] in *.
  - eapply same_disk_trans; [exact Hm | apply Hk].
  - exact Hm.
Qed.

Lemma terminal_only_project_name_loop (fuel : nat) :
  terminal_only (project_name_loop fuel).
Proof.
  induction fuel as [|fuel IH]; cbn [project_name_loop].
  - apply terminal_only_raise.
  - apply terminal_only_bind; [apply terminal_only_input |].
    intros line. destruct (nonempty (strip line)).
    + apply terminal_only_ret.
    + apply terminal_only_bind; [apply terminal_only_print | intros _; exact IH].
Qed.

Ltac terminal_only_step :=
  cbv zeta;
  lazymatch goal with
  | |- terminal_only (ret _) => apply terminal_only_ret
  | |- terminal_only (print _) => apply terminal_only_print
  | |- terminal_only (input _) => apply terminal_only_input
  | |- terminal_only (bind _ _) => apply terminal_only_bind; [| intros ?]
  | |- terminal_only (fun w => project_name_loop _ w) =>
      intros ?; apply terminal_only_project_name_loop
  end.

Lemma terminal_only_get_user_input : terminal_only get_user_input.
Proof. unfold get_user_input. repeat terminal_only_step. Qed.

(** The loop of [get_user_input] never runs out of fuel: any two
    amounts above the number of pending events give the same run. *)
Lemma project_name_loop_fuel (n m : nat) (w : world) :
  (length (stdin w) < n)%nat -> (length (stdin w) < m)%nat ->
  project_name_loop n w = project_name_loop m w.
Proof.
  revert m w. induction n as [|n IH]; intros m w Hn Hm; [lia |].
  destruct m as [|m]; [lia |].
  cbn [project_name_loop]. unfold bind, input.
  destruct (stdin w) as [|[line|] rest] eqn:Hin; try reflexivity.
  destruct (nonempty (strip line)); [reflexivity |].
  unfold print. cbn [length] in Hn, Hm.
  apply IH; cbn [stdin with_stdin with_stdout]; lia.
Qed.

(** ** Declining the confirmation *)

(** C7: when the user answers [n] or [no] at the final confirmation
    prompt of [main], nothing on disk has changed and the exit status
    is 0. *)
Theorem decline_changes_nothing
    (w w1 : world) (answers : str * str * str * str) (line : str) (rest : list event) :
  exists_ (fs w) (Path (u "pyproject.toml")) = true ->
  get_user_input w = (Ret answers, w1) ->
  stdin w1 = Line line :: rest ->
  str_in (lower (strip line)) [u "n"; u "no"] = true ->
  exists w2,
    main w = (Ret 0%Z, w2) /\ run_script w = (0%Z, w2)
    /\ same_disk w w2 /\ stdin w2 = rest.
Proof.
  intros Hfound Hask Hin Hno.
  pose proof (terminal_only_get_user_input w) as Hdisk. rewrite Hask in Hdisk.
  cbn [snd] in Hdisk.
  assert (Hmain : exists w2, main w = (Ret 0%Z, w2) /\ same_disk w w2 /\ stdin w2 = rest).
  { unfold main, bind at 1, path_exists. rewrite Hfound. cbn [negb].
    unfold bind at 1. rewrite Hask. destruct answers as [[[pkg proj] an] ae].
    unfold bind, print, input, ret.
    cbn [stdin stdout fs fault script with_stdout with_stdin].
    rewrite Hin, Hno.
    eexists. split; [reflexivity |]. split; [| reflexivity].
    destruct Hdisk as (? & ? & ?). repeat split; assumption. }
  destruct Hmain as (w2 & Hmain & Hsame & Hrest).
  exists w2. unfold run_script. rewrite Hmain. auto.
Qed.

Lemma decline_changes_nothing_witness :
  let w := checkout [u "My GenAI App"; []; []; []; []; u "n"] no_faults in
  exists w2,
    main w = (Ret 0%Z, w2) /\ run_script w = (0%Z, w2)
    /\ same_disk w w2 /\ stdin w2 = [].
Proof.
  intros w.
  destruct (get_user_input w) as [r w1] eqn:E.
  assert (Hr : r = Ret (u "my_genai_app", u "my-genai-app", u "Your Name",
                        u "your.email@example.com")).
  { change r with (fst (r, w1)). rewrite <- E. vm_compute. reflexivity. }
  assert (Hin : stdin w1 = [Line (u "n")]).
  { change w1 with (snd (r, w1)). rewrite <- E. vm_compute. reflexivity. }
  subst r.
  eapply decline_changes_nothing; [| exact E | exact Hin |]; vm_compute; reflexivity.
Defined.

(** ** Two complete runs *)

(** Every answer given and nothing failing: the package is renamed, the
    config edited, the marker rewritten, the repository made afresh and
    the script removed; the exit status is 0. *)
Example run_to_completion :
  let w := checkout [u "My GenAI App"; []; []; u "Ann"; u "ann@example.com";
                     []; u "y"; []] no_faults in
  fst (run_script w) = 0%Z
  /\ List.map (fun p => fs (snd (run_script w)) !! p)
       [ [u "pyproject.toml"];
         [u "src"; u "template_package"];
         [u "src"; u "my_genai_app"];
         [u "src"; u "my_genai_app"; u "__init__.py"];
         [u ".git"];
         [u ".git"; u "HEAD"];
         [u "init_template.py"] ]
     = [ Some (File (edited_text (u "my-genai-app") (u "Ann") (u "ann@example.com")));
         None;
         Some Dir;
         Some (File (init_content (u "my_genai_app")));
         Some Dir;
         Some (File (u "ref: refs/heads/master" ++ [newline]));
         None ]
  /\ size (fs (snd (run_script w))) = 10%nat
  /\ stdin (snd (run_script w)) = [].
Proof. vm_compute. repeat split; reflexivity. Qed.

(** The input ends at the first prompt: the [EOFError] reaches the top
    level, which reports it and exits with status 1; the files are as
    they were. *)
Example run_without_input :
  let w := checkout [] no_faults in
  fst (run_script w) = 1%Z
  /\ map_to_list (fs (snd (run_script w))) = map_to_list (fs w)
  /\ List.last (stdout (snd (run_script w))) []
     = [newline] ++ cross ++ u " Unexpected error: EOF when reading a line".
Proof. vm_compute. repeat split; reflexivity. Qed.

(** ** The version-control step and the overall flag *)

(** Removing a tree succeeds or raises an [Exception]; either way the
    terminal and the oracle are left alone. *)
Lemma rmtree_outcome (p : path) (w : world) :
  (exists m, rmtree p w = (Ret tt, with_fs m w))
  \/ (exists e m, rmtree p w = (Raise (Exception e), with_fs m w)).
Proof.
  unfold rmtree, oserror.
  destruct (fault w (SysRmtree p)); [right; eauto |].
  destruct (fs w !! p) as [[c|]|]; eauto;
    right; eexists _, (fs w); destruct w; reflexivity.
Qed.

(** When the user does not decline, [main] goes on to the four steps. *)
Lemma main_proceeds
    (w wa : world) (package_name project_name author_name author_email : str)
    (answer : str) (rest : list event) :
  exists_ (fs w) (Path (u "pyproject.toml")) = true ->
  get_user_input w = (Ret (package_name, project_name, author_name, author_email), wa) ->
  stdin wa = Line answer :: rest ->
  says_no answer = false ->
  main w
  = initialize package_name project_name author_name author_email
      (confirmed package_name project_name author_name author_email rest wa).
Proof.
  unfold says_no. intros Hfound Hask Hin Hno.
  unfold main. run. rewrite Hfound. cbn [negb]. run. rewrite Hask. run.
  rewrite (run_input _ answer rest) by exact Hin. cbv beta iota zeta.
  rewrite Hno. reflexivity.
Qed.

Lemma pair_with_snd {A B : Type} (x : A * B) (a : A) : fst x = a -> x = (a, snd x).
Proof. destruct x. cbn. congruence. Qed.

(** C1, at two inputs where the code departs from it.  In the first
    run the [git] command fails; in the second [.git] is a regular file
    (as in a linked worktree), so that its deletion fails.  In both the
    directory rename, the config edit and the marker write succeed and
    the failure of the version-control step is reported as a warning,
    as the failure of the marker write is, which returns [True].  But
    [reinit_git] returns [False]: [main] ends with the error report and
    exit status 1, although the only line of output that carries the
    error mark is that report. *)
Theorem git_warning_fails_the_run :
  let answers := [u "My GenAI App"; []; []; []; []; u "y"; u "y"] in
  let steps w :=
    let r1 := rename_package (u "template_package") (u "my_genai_app")
                (steps_begin (u "my_genai_app") (u "my-genai-app") (u "Your Name")
                   (u "your.email@example.com") [Line (u "y")]
                   (snd (get_user_input w))) in
    let r2 := update_pyproject_toml (u "my_genai_app") (u "my-genai-app")
                (u "Your Name") (u "your.email@example.com") (snd r1) in
    let r3 := update_package_init (u "my_genai_app") (snd r2) in
    let r4 := reinit_git (snd r3) in
    (fst r1, fst r2, fst r3, fst r4) in
  let fails w :=
    steps w = (Ret true, Ret true, Ret true, Ret false)
    /\ fst (run_script w) = 1%Z
    /\ (exists e, In (git_warning e) (stdout (snd (run_script w))))
    /\ List.filter (has_prefix cross) (stdout (snd (run_script w))) = [errors_report] in
  fails (checkout answers git_fails)
  /\ fails (with_fs git_file_fs (checkout answers no_faults)).
Proof.
  vm_compute.
  repeat split; try reflexivity;
    eexists; repeat (first [left; reflexivity | right]).
Qed.

(** * Further properties *)

(** ** The name transformers *)

Lemma latin1_u_example : latin1 ([0xC9] ++ u "t" ++ [0xE9] ++ u " - 2024 (v2)").
Proof. repeat constructor. Qed.

Lemma transformers_idempotent_latin1_witness :
  let name := [0xC9] ++ u "t" ++ [0xE9] ++ u " - 2024 (v2)" in
  to_snake_case (to_snake_case name) = to_snake_case name
  /\ to_kebab_case (to_kebab_case name) = to_kebab_case name.
Proof. apply transformers_idempotent_latin1. exact latin1_u_example. Defined.

Lemma transformers_charset_latin1_witness :
  let name := [0xC9] ++ u "t" ++ [0xE9] ++ u " - 2024 (v2)" in
  Forall (fun c => lower_word c = true) (to_snake_case name)
  /\ Forall (fun c => lower_word c = true \/ c = hyphen) (to_kebab_case name).
Proof. apply transformers_charset_latin1. exact latin1_u_example. Defined.

(** A name that is already in its final form passes through unchanged:
    lowercase word characters without hyphen or white space for
    [to_snake_case]; lowercase word characters and hyphens without
    underscore or white space for [to_kebab_case]. *)
Theorem finished_names_unchanged (name : str) :
  (Forall (fun c => snake_char c = true) name -> to_snake_case name = name)
  /\ (Forall (fun c => kebab_char c = true) name -> to_kebab_case name = name).
Proof. split; [apply to_snake_case_fixed | apply to_kebab_case_fixed]. Qed.

Lemma finished_names_unchanged_witness :
  to_snake_case (u "my_genai_app2") = u "my_genai_app2"
  /\ to_kebab_case (u "my-genai-app2") = u "my-genai-app2".
Proof.
  split.
  - apply (finished_names_unchanged (u "my_genai_app2")).
    repeat constructor.
  - apply (finished_names_unchanged (u "my-genai-app2")).
    repeat constructor.
Defined.

(** On Latin-1 input no separator of the other convention survives:
    the output of [to_snake_case] has no hyphen and no white space, that
    of [to_kebab_case] no underscore and no white space. *)
Theorem transformers_leave_no_foreign_separator (name : str) :
  latin1 name ->
  Forall (fun c => c <> hyphen /\ Unicode.isspace c = false) (to_snake_case name)
  /\ Forall (fun c => c <> underscore /\ Unicode.isspace c = false) (to_kebab_case name).
Proof.
  intros H. split.
  - eapply List.Forall_impl; [| apply to_snake_case_chars, H].
    intros c Hc. unfold snake_char in Hc.
    rewrite andb_true_iff, negb_true_iff in Hc. destruct Hc as [_ Hc].
    cbn in Hc. rewrite orb_false_r in Hc. apply orb_false_iff in Hc.
    destruct Hc as [Hh Hs]. split; [apply N.eqb_neq, Hh | exact Hs].
  - eapply List.Forall_impl; [| apply to_kebab_case_chars, H].
    intros c Hc. unfold kebab_char in Hc.
    rewrite andb_true_iff, negb_true_iff in Hc. destruct Hc as [_ Hc].
    cbn in Hc. rewrite orb_false_r in Hc. apply orb_false_iff in Hc.
    destruct Hc as [Hh Hs]. split; [apply N.eqb_neq, Hh | exact Hs].
Qed.

Lemma transformers_leave_no_foreign_separator_witness :
  let name := u "my-genai_app  v2" in
  Forall (fun c => c <> hyphen /\ Unicode.isspace c = false) (to_snake_case name)
  /\ Forall (fun c => c <> underscore /\ Unicode.isspace c = false) (to_kebab_case name).
Proof. apply transformers_leave_no_foreign_separator. repeat constructor. Defined.

(** *** When a transformer returns the empty string *)

Section PlusPatternMembers.

Variables (ic : bool) (a : atom) (repl : str).

Local Abbreviation hit := (atom_matches ic a).

Lemma skip_or_hit (s : str) (c : N) :
  In c s -> In c (skip hit s) \/ hit c = true.
Proof.
  induction s as [|x s IH]; cbn [skip In]; [tauto |].
  intros [-> | Hc].
  - destruct (hit c) eqn:E; [right; reflexivity | left; left; reflexivity].
  - destruct (hit x); [apply IH, Hc | left; right; exact Hc].
Qed.

(** A character that the set does not match stays; one that it matches
    brings the replacement into the result. *)
Lemma re_sub_plus_members (s : str) (c : N) :
  In c s ->
  (hit c = false -> In c (re_sub_plain ic [Plus a] repl s))
  /\ (hit c = true -> forall x, In x repl -> In x (re_sub_plain ic [Plus a] repl s)).
Proof.
  remember (length s) as n eqn:Hn. revert s Hn.
  induction n as [n IH] using lt_wf_ind. intros s Hn Hc.
  destruct s as [|y s]; [destruct Hc |].
  rewrite re_sub_plus_cons.
  pose proof (skip_length hit s) as Hlen.
  assert (Hrec : forall s', (length s' < n)%nat -> In c s' ->
            (hit c = false -> In c (re_sub_plain ic [Plus a] repl s'))
            /\ (hit c = true ->
                forall x, In x repl -> In x (re_sub_plain ic [Plus a] repl s')))
    by (intros s' Hs' Hin; exact (IH (length s') Hs' s' eq_refl Hin)).
  cbn [length] in Hn.
  destruct (hit y) eqn:Hy.
  - destruct Hc as [-> | Hc].
    + split; [congruence |]. intros _ x Hx. apply in_or_app. left. exact Hx.
    + destruct (skip_or_hit s c Hc) as [Hin | Hhit].
      * destruct (Hrec (skip hit s) ltac:(lia) Hin) as [H1 H2].
        split; intros E; [| intros x Hx]; apply in_or_app; right; auto.
      * split; [congruence |]. intros _ x Hx. apply in_or_app. left. exact Hx.
  - destruct Hc as [-> | Hc].
    + split; [intros _; left; reflexivity | congruence].
    + destruct (Hrec s ltac:(lia) Hc) as [H1 H2].
      split; intros E; [| intros x Hx]; right; auto.
Qed.

End PlusPatternMembers.

Lemma lower_nil (s : str) : lower s = [] -> s = [].
Proof.
  destruct s as [|c s]; [reflexivity |].
  unfold lower. cbn [flat_map]. unfold Unicode.lower at 1.
  destruct (c =? 304); discriminate.
Qed.

Lemma filter_nil (f : N -> bool) (s : str) :
  List.filter f s = [] <-> Forall (fun c => f c = false) s.
Proof.
  induction s as [|c s IH]; cbn [List.filter].
  - split; [constructor | reflexivity].
  - destruct (f c) eqn:E.
    + split; [discriminate |]. intros H. inversion H; congruence.
    + rewrite IH. split; [intros H; constructor; assumption |].
      intros H. inversion H; assumption.
Qed.

Lemma dropped_char_spec (c : N) :
  dropped_char c = true
  <-> is_word c = false /\ c <> hyphen /\ Unicode.isspace c = false.
Proof.
  unfold dropped_char.
  rewrite !andb_true_iff, !negb_true_iff, N.eqb_neq. tauto.
Qed.

(** On Latin-1 input a transformer returns the empty string exactly
    when every character of its input is dropped: no word character, no
    hyphen, no white space.  The two transformers agree on this; a
    project name such as ["(!?)"] passes the emptiness check of
    [get_user_input] and still yields an empty package name. *)
Theorem transformers_empty_output (name : str) :
  latin1 name ->
  (to_snake_case name = [] <-> Forall (fun c => dropped_char c = true) name)
  /\ (to_kebab_case name = [] <-> Forall (fun c => dropped_char c = true) name).
Proof.
  intros _. split.
  - unfold to_snake_case. change (u "") with (@nil N). rewrite re_sub_one_filter.
    rewrite (filter_ext_str _ is_word) by exact keeps_word.
    split.
    + intros H. apply lower_nil in H. apply filter_nil in H.
      rewrite List.Forall_forall in H.
      apply List.Forall_forall. intros c Hc. apply dropped_char_spec.
      destruct (re_sub_plus_members false snake_separators (u "_") name c Hc)
        as [Hkeep Hrepl].
      destruct (atom_matches false snake_separators c) eqn:Hsep.
      * specialize (H 95 (Hrepl eq_refl 95 ltac:(left; reflexivity))).
        discriminate.
      * specialize (H c (Hkeep eq_refl)).
        cbn in Hsep. rewrite orb_false_r in Hsep. apply orb_false_iff in Hsep.
        destruct Hsep as [Hh Hs]. apply N.eqb_neq in Hh. tauto.
    + intros H.
      assert (Hd : Forall (fun c => is_word c = false /\ c <> hyphen
                                   /\ Unicode.isspace c = false) name)
        by (eapply List.Forall_impl; [| exact H];
            intros c Hc; exact (proj1 (dropped_char_spec c) Hc)).
      rewrite re_sub_plus_id.
      * replace (List.filter is_word name) with (@nil N); [reflexivity |].
        symmetry. apply filter_nil.
        eapply List.Forall_impl; [| exact Hd]. cbv beta. tauto.
      * eapply List.Forall_impl; [| exact Hd]. intros c (Hw & Hh & Hs).
        cbn. apply N.eqb_neq in Hh. rewrite Hh, Hs. reflexivity.
  - unfold to_kebab_case. change (u "") with (@nil N). rewrite re_sub_one_filter.
    rewrite (filter_ext_str _ (fun c => is_word c || (c =? hyphen)))
      by exact keeps_word_or_hyphen.
    split.
    + intros H. apply lower_nil in H. apply filter_nil in H.
      rewrite List.Forall_forall in H.
      apply List.Forall_forall. intros c Hc. apply dropped_char_spec.
      destruct (re_sub_plus_members false kebab_separators (u "-") name c Hc)
        as [Hkeep Hrepl].
      destruct (atom_matches false kebab_separators c) eqn:Hsep.
      * specialize (H 45 (Hrepl eq_refl 45 ltac:(left; reflexivity))).
        discriminate.
      * specialize (H c (Hkeep eq_refl)). cbv beta in H.
        apply orb_false_iff in H. destruct H as [Hw Hh].
        cbn in Hsep. rewrite orb_false_r in Hsep. apply orb_false_iff in Hsep.
        destruct Hsep as [_ Hs]. apply N.eqb_neq in Hh. tauto.
    + intros H.
      assert (Hd : Forall (fun c => is_word c = false /\ c <> hyphen
                                   /\ Unicode.isspace c = false) name)
        by (eapply List.Forall_impl; [| exact H];
            intros c Hc; exact (proj1 (dropped_char_spec c) Hc)).
      rewrite re_sub_plus_id.
      * replace (List.filter (fun c => is_word c || (c =? hyphen)) name)
          with (@nil N); [reflexivity |].
        symmetry. apply filter_nil.
        eapply List.Forall_impl; [| exact Hd]. intros c (Hw & Hh & Hs).
        apply N.eqb_neq in Hh. rewrite Hw, Hh. reflexivity.
      * eapply List.Forall_impl; [| exact Hd]. intros c (Hw & Hh & Hs).
        cbn. rewrite Hs, orb_false_r.
        destruct (c =? underscore) eqn:E; [| reflexivity].
        apply N.eqb_eq in E. subst c. discriminate.
Qed.

Lemma transformers_empty_output_witness :
  nonempty (strip (u "(!?)")) = true
  /\ to_snake_case (u "(!?)") = [] /\ to_kebab_case (u "(!?)") = [].
Proof.
  split; [reflexivity |].
  destruct (transformers_empty_output (u "(!?)")) as [[_ Hs] [_ Hk]].
  - repeat constructor.
  - split; [apply Hs | apply Hk]; repeat constructor.
Defined.

(** *** Where the renamed package lands *)

Lemma split_slash_none (cur s : str) :
  Forall (fun c => c <> slash) s -> split_slash cur s = [cur ++ s].
Proof.
  intros H. revert cur. induction H as [|c s Hc _ IH]; intros cur; cbn [split_slash].
  - rewrite app_nil_r. reflexivity.
  - apply N.eqb_neq in Hc. rewrite Hc, IH, <- app_assoc. reflexivity.
Qed.

Lemma root_of_no_slash (s : str) : Forall (fun c => c <> slash) s -> root_of s = [].
Proof.
  intros H. destruct H as [|a s Ha H]; [reflexivity |].
  apply N.eqb_neq in Ha.
  destruct s as [|b [|c s]]; cbn [root_of]; rewrite Ha; reflexivity.
Qed.

Lemma is_word_not_slash_dot (c : N) : is_word c = true -> c <> slash /\ c <> 46.
Proof. intros H. split; intros ->; discriminate. Qed.

(** A name of word characters is one path component: joined to [src] it
    names an entry directly inside [src], or [src] itself when the name
    is empty. *)
Lemma joinpath_word_name (p : path) (name : str) :
  Forall (fun c => is_word c = true) name ->
  p // name = if nonempty name then p ++ [name] else p.
Proof.
  intros H.
  assert (Hs : Forall (fun c => c <> slash) name)
    by (eapply List.Forall_impl; [| exact H]; intros c Hc;
        exact (proj1 (is_word_not_slash_dot c Hc))).
  unfold joinpath, Path. rewrite (root_of_no_slash _ Hs).
  rewrite (split_slash_none [] name Hs). cbn [app List.filter].
  unfold keeps_part, nonempty.
  destruct name as [|c name]; [cbn; rewrite app_nil_r; reflexivity |].
  replace (str_eqb (c :: name) (u ".")) with false; [reflexivity |].
  symmetry. inversion H as [|? ? Hc _]; subst.
  destruct (is_word_not_slash_dot c Hc) as [_ Hdot].
  change (u ".") with [46]. cbn [str_eqb].
  apply N.eqb_neq in Hdot. rewrite Hdot. reflexivity.
Qed.

(** On Latin-1 input the package name that [to_snake_case] computes can
    not leave [src]: the directory that [main] renames the package to
    is [src/<name>], one level below [src], or [src] itself when the
    name is empty; and the marker file is [__init__.py] in it. *)
Theorem package_stays_in_src (name : str) :
  latin1 name ->
  let package_name := to_snake_case name in
  Path (u "src") // package_name
  = (if nonempty package_name then [u "src"; package_name] else [u "src"])
  /\ Path (u "src") // package_name // u "__init__.py"
     = (if nonempty package_name then [u "src"; package_name; u "__init__.py"]
        else [u "src"; u "__init__.py"]).
Proof.
  intros H package_name.
  assert (Hw : Forall (fun c => is_word c = true) package_name).
  { eapply List.Forall_impl; [| apply to_snake_case_chars, H].
    intros c Hc. unfold snake_char, lower_word in Hc.
    rewrite !andb_true_iff in Hc. tauto. }
  rewrite (joinpath_word_name _ _ Hw).
  change (Path (u "src")) with [u "src"].
  split; [destruct (nonempty package_name); reflexivity |].
  destruct (nonempty package_name); reflexivity.
Qed.

Lemma package_stays_in_src_witness :
  Path (u "src") // to_snake_case (u "../My App/v2")
  = [u "src"; u "my_appv2"].
Proof.
  destruct (package_stays_in_src (u "../My App/v2")) as [E _].
  - repeat constructor.
  - exact E.
Defined.

(** ** The questions *)

(** Whatever is typed, and also when the input ends or is interrupted,
    [get_user_input] touches nothing but the terminal. *)
Theorem get_user_input_leaves_disk (w : world) :
  same_disk w (snd (get_user_input w)).
Proof.
  revert w. change (terminal_only get_user_input).
  unfold get_user_input. repeat terminal_only_step.
Qed.

(** The loop passes over blank lines and returns the first line that is
    not blank, stripped. *)
Lemma project_name_loop_skips (name : str) (rest : list event) :
  nonempty (strip name) = true ->
  forall (blanks : list str) (fuel : nat) (w : world),
    Forall blank blanks ->
    stdin w = List.map Line blanks ++ Line name :: rest ->
    (length blanks < fuel)%nat ->
    exists w',
      project_name_loop fuel w = (Ret (strip name), w')
      /\ stdin w' = rest /\ same_disk w w'.
Proof.
  intros Hname blanks. induction blanks as [|b blanks IH]; intros fuel w Hb Hin Hfuel.
  - destruct fuel as [|fuel]; [lia |]. cbn [project_name_loop]. run.
    rewrite (run_input _ name rest) by exact Hin. cbv beta iota zeta.
    rewrite Hname. run. eexists. repeat split.
  - destruct fuel as [|fuel]; [cbn [length] in Hfuel; lia |].
    cbn [project_name_loop]. run.
    rewrite (run_input _ b (List.map Line blanks ++ Line name :: rest)) by exact Hin.
    cbv beta iota zeta.
    inversion Hb as [|? ? Hblank Hb']; subst. unfold blank in Hblank.
    unfold nonempty. rewrite Hblank. cbn [str_eqb negb]. run.
    edestruct (IH fuel) as (w' & E & Hrest & Hdisk);
      [exact Hb' | | cbn [length] in Hfuel; lia | ].
    2: { rewrite E. exists w'. repeat split; try exact Hrest; apply Hdisk. }
    reflexivity.
Qed.

(** Blank lines before the project name are passed over; then four more
    lines are read.  The package and project names are the transformed
    overrides, or the transformed project name where an override is
    blank; a blank author name or e-mail address gives the placeholder
    of the template. *)
Theorem get_user_input_answers
    (blanks : list str) (name override_package override_project author email : str)
    (rest : list event) (w : world) :
  Forall blank blanks ->
  nonempty (strip name) = true ->
  stdin w = List.map Line blanks
            ++ [Line name; Line override_package; Line override_project;
                Line author; Line email] ++ rest ->
  exists w',
    get_user_input w
    = (Ret (to_snake_case (answer_or (strip name) override_package),
            to_kebab_case (answer_or (strip name) override_project),
            answer_or (u "Your Name") author,
            answer_or (u "your.email@example.com") email), w')
    /\ stdin w' = rest /\ same_disk w w'.
Proof.
  intros Hb Hname Hin. unfold get_user_input. run.
  set (w0 := say [] _).
  destruct (project_name_loop_skips name
              ([Line override_package; Line override_project; Line author; Line email]
                 ++ rest) Hname blanks (S (length (stdin w0))) w0 Hb)
    as (w1 & E & Hin1 & Hdisk1).
  { exact Hin. }
  { change (stdin w0) with (stdin w). rewrite Hin, length_app, length_map. lia. }
  rewrite E. run.
  rewrite (run_input _ override_package
             ([Line override_project; Line author; Line email] ++ rest))
    by exact Hin1.
  cbv beta iota zeta. run.
  rewrite (run_input _ override_project ([Line author; Line email] ++ rest))
    by reflexivity.
  cbv beta iota zeta. run.
  rewrite (run_input _ author ([Line email] ++ rest)) by reflexivity.
  cbv beta iota zeta. run.
  rewrite (run_input _ email rest) by reflexivity.
  cbv beta iota zeta. run.
  eexists. split.
  { unfold answer_or.
    destruct (nonempty (strip override_package)),
             (nonempty (strip override_project)); reflexivity. }
  split; [reflexivity |].
  destruct Hdisk1 as (? & ? & ?). repeat split; assumption.
Qed.

Lemma get_user_input_answers_witness :
  let w := checkout [u "   "; []; u "  My GenAI App "; []; u "Demo App";
                     u " Ann "; []] no_faults in
  exists w',
    get_user_input w
    = (Ret (u "my_genai_app", u "demo-app", u "Ann", u "your.email@example.com"), w')
    /\ stdin w' = [] /\ same_disk w w'.
Proof.
  intros w.
  apply (get_user_input_answers [u "   "; []] (u "  My GenAI App ") [] (u "Demo App")
           (u " Ann ") [] [] w).
  - repeat constructor.
  - reflexivity.
  - reflexivity.
Defined.

(** ** Trees of the file system *)

Lemma under_spec (d p r : path) : under d p = Some r <-> p = d ++ r.
Proof.
  revert p. induction d as [|x d IH]; intros p; cbn [under app].
  - split; [intros [= ->]; reflexivity | intros ->; reflexivity].
  - destruct p as [|y p]; [split; discriminate |].
    destruct (str_eqb x y) eqn:E.
    + apply str_eqb_eq in E. subst y. rewrite IH.
      split; [intros ->; reflexivity | intros [= ->]; reflexivity].
    + split; [discriminate |]. intros [= -> _].
      assert (str_eqb x x = true) by (apply str_eqb_eq; reflexivity). congruence.
Qed.

Lemma under_app (d r : path) : under d (d ++ r) = Some r.
Proof. apply under_spec. reflexivity. Qed.

Lemma under_none (d p : path) : under d p = None <-> forall r, p <> d ++ r.
Proof.
  split.
  - intros H r E. apply under_spec in E. congruence.
  - intros H. destruct (under d p) as [r|] eqn:E; [| reflexivity].
    apply under_spec in E. destruct (H r E).
Qed.






(** A tree placed at [dst] under what [m] has there. *)
Lemma planted_lookup_below (dst r : path) (t m : gmap path node) :
  (m ∪ kmap (app dst) t) !! (dst ++ r)
  = match m !! (dst ++ r) with
    | Some n => Some n
    | None => t !! r
    end.
Proof.
  rewrite lookup_union, (lookup_kmap (app dst)).
  destruct (m !! (dst ++ r)), (t !! r); reflexivity.
Qed.

Lemma planted_lookup_other (dst k : path) (t m : gmap path node) :
  under dst k = None -> (m ∪ kmap (app dst) t) !! k = m !! k.
Proof.
  intros Hk. rewrite lookup_union.
  match goal with |- context [?x !! k] =>
    match x with kmap _ _ => assert (E : x !! k = None) end
  end.
  { apply (lookup_kmap_None (app dst)). intros r ->.
    rewrite under_app in Hk. discriminate. }
  rewrite E. destruct (m !! k); reflexivity.
Qed.

Lemma NoDup_fst_filter (f : path * node -> bool) (l : list (path * node)) :
  NoDup l.*1 -> NoDup (List.filter f l).*1.
Proof.
  induction l as [|kv l IH]; cbn [List.filter fmap list_fmap]; [constructor |].
  intros Hnd. apply NoDup_cons in Hnd. destruct Hnd as [Hk Hnd].
  destruct (f kv); [| exact (IH Hnd)].
  cbn [fmap list_fmap]. apply NoDup_cons. split; [| exact (IH Hnd)].
  intros Hin. apply Hk.
  apply list_elem_of_fmap in Hin. destruct Hin as (kv' & E & Hin).
  apply list_elem_of_fmap. exists kv'. split; [exact E |].
  apply list_elem_of_In. apply list_elem_of_In, List.filter_In in Hin. tauto.
Qed.

(** What is left when a tree is removed. *)
Lemma remove_tree_lookup (p k : path) (m : gmap path node) :
  remove_tree p m !! k = match under p k with
                         | Some _ => None
                         | None => m !! k
                         end.
Proof.
  unfold remove_tree.
  set (f := fun kv : path * node =>
              match under p (fst kv) with Some _ => false | None => true end).
  assert (Hnd : NoDup ((List.filter f (map_to_list m)).*1))
    by (apply NoDup_fst_filter, NoDup_fst_map_to_list).
  destruct (list_to_map (List.filter f (map_to_list m)) !! k) as [v|] eqn:E.
  - apply elem_of_list_to_map in E; [| exact Hnd].
    apply list_elem_of_In, List.filter_In in E. destruct E as [Hin Hf].
    unfold f in Hf. cbn [fst] in Hf.
    destruct (under p k); [discriminate |].
    apply list_elem_of_In, elem_of_map_to_list in Hin. congruence.
  - destruct (under p k) eqn:Hu; [reflexivity |].
    destruct (m !! k) as [v|] eqn:Hk; [| reflexivity].
    exfalso. apply not_elem_of_list_to_map in E. apply E.
    apply list_elem_of_fmap. exists (k, v). split; [reflexivity |].
    apply list_elem_of_In, List.filter_In. split.
    + apply list_elem_of_In, elem_of_map_to_list. exact Hk.
    + unfold f. cbn [fst]. rewrite Hu. reflexivity.
Qed.







(** ** The directory rename *)

Lemma with_fs_id (w : world) : with_fs (fs w) w = w.
Proof. destruct w. reflexivity. Qed.




Lemma disk_only_error (msg : string) (w : world) : disk_only (oserror msg, w) w (fs w).
Proof. split; [symmetry; apply with_fs_id | right; eexists; reflexivity]. Qed.

Lemma disk_only_raise (msg : str) (w : world) :
  disk_only (Raise (Exception msg), w) w (fs w).
Proof. split; [symmetry; apply with_fs_id | right; eexists; reflexivity]. Qed.












(** *** What a successful move does *)



(** ** The config editor, whatever its arguments *)

Lemma read_text_outcome (p : path) (w : world) :
  (exists content, lookup_node (fs w) p = Some (File content)
                   /\ read_text p w = (Ret (universal_newlines content), w))
  \/ (exists e, read_text p w = (Raise (Exception e), w)).
Proof.
  unfold read_text, oserror.
  destruct (fault w (SysRead p)); [right; eauto |].
  destruct (lookup_node (fs w) p) as [[c|]|]; eauto.
Qed.

(** Writing a file touches no other; when it returns the file holds
    the text. *)
Lemma write_text_spec (p : path) (content : str) (w : world) :
  exists m',
    disk_only (write_text p content w) w m'
    /\ (forall k, k <> p -> m' !! k = fs w !! k)
    /\ (fst (write_text p content w) = Ret tt -> m' = <[p := File content]> (fs w)).
Proof.
  unfold write_text.
  destruct (fault w (SysWrite p));
    [exists (fs w); split; [apply disk_only_raise |]; split; [auto | discriminate] |].
  assert (Hopen :
    exists m',
      disk_only
        (if negb (is_dir (fs w) (parent p))
         then (oserror "No such file or directory", w)
         else if negb (exists_ (fs w) p) && too_long p
         then (oserror "File name too long", w)
         else
           if negb (encodable content)
           then (oserror "'utf-8' codec can't encode: surrogates not allowed",
                 with_fs (<[p := File []]> (fs w)) w)
           else match fault w (SysFlush p) with
                | Some msg => (Raise (Exception msg), with_fs (<[p := File []]> (fs w)) w)
                | None => (Ret tt, with_fs (<[p := File content]> (fs w)) w)
                end) w m'
      /\ (forall k, k <> p -> m' !! k = fs w !! k)
      /\ (fst (if negb (is_dir (fs w) (parent p))
               then (@oserror unit "No such file or directory", w)
               else if negb (exists_ (fs w) p) && too_long p
               then (oserror "File name too long", w)
               else
                 if negb (encodable content)
                 then (oserror "'utf-8' codec can't encode: surrogates not allowed",
                       with_fs (<[p := File []]> (fs w)) w)
                 else match fault w (SysFlush p) with
                      | Some msg =>
                          (Raise (Exception msg), with_fs (<[p := File []]> (fs w)) w)
                      | None => (Ret tt, with_fs (<[p := File content]> (fs w)) w)
                      end) = Ret tt ->
          m' = <[p := File content]> (fs w))).
  { destruct (negb (is_dir (fs w) (parent p)));
      [exists (fs w); split; [apply disk_only_error |]; split; [auto | discriminate] |].
    destruct (negb (exists_ (fs w) p) && too_long p);
      [exists (fs w); split; [apply disk_only_error |]; split; [auto | discriminate] |].
    destruct (negb (encodable content)).
    { eexists. split; [split; cbn [fst snd]; [reflexivity | right; eexists; reflexivity] |].
      split; [| discriminate]. intros k Hk. apply lookup_insert_ne. congruence. }
    destruct (fault w (SysFlush p)).
    { eexists. split; [split; cbn [fst snd]; [reflexivity | eauto] |].
      split; [| discriminate]. intros k Hk. apply lookup_insert_ne. congruence. }
    eexists. split; [split; cbn [fst snd]; [reflexivity | eauto] |].
    split; [| reflexivity]. intros k Hk. apply lookup_insert_ne. congruence. }
  destruct (lookup_node (fs w) p) as [[c|]|]; try exact Hopen.
  exists (fs w). split; [apply disk_only_error |]. split; [auto | discriminate].
Qed.

Lemma lift_re_outcome {A : Type} (o : option A) (w : world) :
  (exists a, o = Some a /\ lift_re o w = (Ret a, w))
  \/ (o = None /\ exists e, lift_re o w = (Raise (Exception e), w)).
Proof. destruct o; cbn; eauto. Qed.

(** The four substitutions, run one after the other. *)
Lemma substitutions_run
    (project_name author_name author_email content : str) (k : str -> M bool)
    (w : world) :
  (content <- lift_re (re_sub false name_pattern
                         (u "name = " ++ quoted project_name) content) ;;
   content <- lift_re (re_sub true description_pattern
                         (u "description = "
                            ++ quoted (project_name ++ u " - A GenAI application"))
                         content) ;;
   content <- lift_re (re_sub false author_pattern
                         (u "name = " ++ quoted author_name) content) ;;
   content <- lift_re (re_sub false email_pattern
                         (u "email = " ++ quoted author_email) content) ;;
   k content) w
  = match substitutions project_name author_name author_email content with
    | Some new => k new w
    | None => (Raise (Exception (u "re.error")), w)
    end.
Proof.
  unfold substitutions.
  repeat (rewrite run_bind;
          match goal with
          | |- context [lift_re ?o w] => destruct o; cbn [lift_re]; try reflexivity
          end;
          try rewrite run_ret).
Qed.

(** [update_pyproject_toml] never raises and reads no input.  No file
    but [pyproject.toml] is ever touched.  When that file is missing
    the step returns [False] and the disk is as it was; and so it is
    when the library rejects one of the replacement texts: the file is
    opened for writing last, after every substitution has gone
    through. *)
Theorem update_pyproject_toml_returns
    (package_name project_name author_name author_email : str) (w : world) :
  exists b w',
    update_pyproject_toml package_name project_name author_name author_email w
    = (Ret b, w')
    /\ stdin w' = stdin w
    /\ (forall p, p <> Path (u "pyproject.toml") -> fs w' !! p = fs w !! p)
    /\ (exists_ (fs w) (Path (u "pyproject.toml")) = false -> b = false /\ fs w' = fs w)
    /\ (forall content,
          fs w !! Path (u "pyproject.toml") = Some (File content) ->
          substitutions project_name author_name author_email
            (universal_newlines content) = None ->
          b = false /\ fs w' = fs w).
Proof.
  unfold update_pyproject_toml.
  rewrite run_bind, run_path_exists_pyproject.
  destruct (exists_ (fs w) (Path (u "pyproject.toml"))); cbn [negb].
  2: { run. eexists _, _. repeat split. }
  rewrite run_try_except, run_bind.
  destruct (read_text_outcome (Path (u "pyproject.toml")) w) as [(c & Hc & E) | [e E]];
    rewrite E.
  2: { run. eexists _, _. repeat split; try discriminate. }
  change (lookup_node (fs w) (Path (u "pyproject.toml")))
    with (fs w !! Path (u "pyproject.toml")) in Hc.
  rewrite substitutions_run.
  destruct (substitutions project_name author_name author_email (universal_newlines c))
    as [new|] eqn:Hsub; run.
  2: { eexists _, _. repeat split; try discriminate. }
  destruct (write_text_spec (Path (u "pyproject.toml")) new w)
    as (m' & [Hw' Hr] & Hframe & _).
  destruct (write_text (Path (u "pyproject.toml")) new w) as [r w1].
  cbn [fst snd] in Hw', Hr. subst w1.
  destruct Hr as [-> | [e ->]]; run;
    (eexists _, _; split; [reflexivity |]);
    cbn [stdin fs say with_fs with_stdout];
    (split; [reflexivity |]); (split; [exact Hframe |]);
    (split; [discriminate |]); intros content Hcontent Hnone; congruence.
Qed.

(** *** One field at a time *)

Lemma suffixes_split (s a b : str) : s = a ++ b -> In b (suffixes s).
Proof.
  revert s. induction a as [|x a IH]; intros s ->; cbn [app].
  - destruct b; left; reflexivity.
  - cbn [suffixes]. right. apply IH. reflexivity.
Qed.

(** Absence of a pattern can be checked suffix by suffix. *)
Lemma no_match_in_check (ic : bool) (p : pattern) (s : str) :
  forallb (fails_at ic p) (suffixes s) = true -> no_match_in ic p s.
Proof.
  intros H pre post E. rewrite List.forallb_forall in H.
  specialize (H post (suffixes_split s pre post E)). unfold fails_at in H.
  destruct (match_here ic p post); [discriminate | reflexivity].
Qed.

Lemma no_early_match_check (ic : bool) (p : pattern) (pre tail : str) :
  forallb (fun b => match b with
                    | [] => true
                    | _ => fails_at ic p (b ++ tail)
                    end) (suffixes pre) = true ->
  forall a b, pre = a ++ b -> b <> [] -> match_here ic p (b ++ tail) = None.
Proof.
  intros H a b E Hb. rewrite List.forallb_forall in H.
  specialize (H b (suffixes_split pre a b E)).
  destruct b as [|x b]; [congruence |]. unfold fails_at in H.
  destruct (match_here ic p ((x :: b) ++ tail)); [discriminate | reflexivity].
Qed.

Lemma field_unchanged_when_absent_witness :
  re_sub true description_pattern
    (u "description = " ++ quoted (u "my-genai-app - A GenAI application"))
    (u "description = " ++ quoted (u "A starter kit") ++ [newline]
       ++ u "# a template" ++ [newline])
  = Some (u "description = " ++ quoted (u "A starter kit") ++ [newline]
            ++ u "# a template" ++ [newline]).
Proof.
  apply field_unchanged_when_absent.
  - plain_const.
  - apply no_match_in_check. vm_compute. reflexivity.
Defined.

Lemma field_rewritten_when_present_witness :
  let pre := u "[project]" ++ [newline] in
  let post :=
    [newline] ++ u "authors = [{ name = " ++ quoted (u "Your Name") ++ u " }]" in
  re_sub true description_pattern
    (u "description = " ++ quoted (u "my-genai-app - A GenAI application"))
    (pre ++ (u "Description = " ++ quoted (u "A TEMPLATE for " ++ quoted (u "apps")))
         ++ post)
  = Some (pre
            ++ (u "description = " ++ quoted (u "my-genai-app - A GenAI application"))
            ++ re_sub_plain true description_pattern
                 (u "description = " ++ quoted (u "my-genai-app - A GenAI application"))
                 post).
Proof.
  intros pre post. apply field_rewritten_when_present.
  - plain_const.
  - apply no_early_match_check. vm_compute. reflexivity.
  - vm_compute. reflexivity.
  - discriminate.
Defined.

(** Text without a carriage return is read as it is. *)
Lemma universal_newlines_id (s : str) :
  Forall (fun c => c <> 13) s -> universal_newlines s = s.
Proof.
  induction 1 as [|c s Hc _ IH]; cbn [universal_newlines]; [reflexivity |].
  destruct (c =? 13) eqn:E; [apply N.eqb_eq in E; contradiction |].
  rewrite IH. reflexivity.
Qed.

(** When none of the four placeholders occurs in [pyproject.toml] (the
    file of a project that is already initialised, say), the values
    have no backslash and reading and writing go through, the step
    reports success and the file holds the text that was read: its own
    text, with the line ends that [open] translates (a carriage return,
    alone or before a line feed) as line feeds.  A file without
    carriage returns keeps its text. *)
Theorem update_pyproject_toml_without_placeholders
    (package_name project_name author_name author_email content : str) (w : world) :
  let text := universal_newlines content in
  plain project_name -> plain author_name -> plain author_email ->
  fs w !! Path (u "pyproject.toml") = Some (File content) ->
  fault w (SysRead (Path (u "pyproject.toml"))) = None ->
  fault w (SysWrite (Path (u "pyproject.toml"))) = None ->
  fault w (SysFlush (Path (u "pyproject.toml"))) = None ->
  encodable text = true ->
  no_match_in false name_pattern text ->
  no_match_in true description_pattern text ->
  no_match_in false author_pattern text ->
  no_match_in false email_pattern text ->
  exists w',
    update_pyproject_toml package_name project_name author_name author_email w
    = (Ret true, w')
    /\ fs w' = <[Path (u "pyproject.toml") := File text]> (fs w)
    /\ (Forall (fun c => c <> 13) content -> fs w' = fs w)
    /\ stdout w' = stdout w ++ [tick ++ u " Updated pyproject.toml"].
Proof.
  intros text Hp Ha He Hfile Hread Hwrite Hflush Henc H1 H2 H3 H4.
  assert (Hedit : edit_toml project_name author_name author_email text = text).
  { unfold edit_toml, re_sub_plain. cbv zeta.
    rewrite (re_sub_with_absent false name_pattern) by exact H1.
    rewrite (re_sub_with_absent true description_pattern) by exact H2.
    rewrite (re_sub_with_absent false author_pattern) by exact H3.
    rewrite (re_sub_with_absent false email_pattern) by exact H4.
    reflexivity. }
  rewrite (update_pyproject_toml_plain package_name project_name author_name
             author_email content w); try assumption.
  2: { fold text. rewrite Hedit. exact Henc. }
  fold text. rewrite Hedit.
  eexists. split; [reflexivity |]. cbn [fs stdout say with_fs with_stdout].
  split; [reflexivity |]. split; [| reflexivity].
  intros Hcr. unfold text. rewrite (universal_newlines_id _ Hcr).
  apply insert_id. exact Hfile.
Qed.

Lemma update_pyproject_toml_without_placeholders_witness :
  let content := edited_text (u "my-genai-app") (u "Ann") (u "ann@example.com") in
  let w := with_fs (<[Path (u "pyproject.toml") := File content]> template_fs)
             (checkout [] no_faults) in
  exists w',
    update_pyproject_toml (u "other_app") (u "other-app") (u "Bob") (u "bob@example.com") w
    = (Ret true, w')
    /\ fs w' = fs w
    /\ stdout w' = stdout w ++ [tick ++ u " Updated pyproject.toml"].
Proof.
  intros content w.
  destruct (update_pyproject_toml_without_placeholders (u "other_app") (u "other-app")
              (u "Bob") (u "bob@example.com") content w)
    as (w' & E & _ & Hsame & Hout).
  - plain_const.
  - plain_const.
  - plain_const.
  - apply lookup_insert_eq.
  - reflexivity.
  - reflexivity.
  - reflexivity.
  - vm_compute. reflexivity.
  - apply no_match_in_check. vm_compute. reflexivity.
  - apply no_match_in_check. vm_compute. reflexivity.
  - apply no_match_in_check. vm_compute. reflexivity.
  - apply no_match_in_check. vm_compute. reflexivity.
  - exists w'. split; [exact E |]. split; [| exact Hout].
    apply Hsame. vm_compute. repeat constructor; discriminate.
Defined.

(** ** The marker file and the script itself *)


Lemma remove_self_outcome (w : world) :
  exists w',
    remove_self w = (Ret tt, w')
    /\ stdin w' = stdin w
    /\ (forall p, p <> script w -> fs w' !! p = fs w !! p)
    /\ (fs w' = fs w \/ fs w' !! script w = None)
    /\ (fault w (SysUnlink (script w)) = None ->
        (exists content, fs w !! script w = Some (File content)) ->
        fs w' !! script w = None).
Proof.
  unfold remove_self. run. unfold unlink.
  destruct (fault w (SysUnlink (script w))) as [e|] eqn:Hf; run.
  { eexists. split; [reflexivity |]. repeat split; try discriminate. left. reflexivity. }
  destruct (fs w !! script w) as [[c|]|] eqn:Hs; unfold oserror; run.
  - eexists. split; [reflexivity |]. cbn [stdin fs say with_fs with_stdout].
    repeat split.
    + intros p Hp. apply lookup_delete_ne. congruence.
    + right. apply lookup_delete_eq.
    + intros _ _. apply lookup_delete_eq.
  - eexists. split; [reflexivity |]. repeat split.
    + left. reflexivity.
    + intros _ [c Hc]. discriminate.
  - eexists. split; [reflexivity |]. repeat split.
    + left. reflexivity.
    + intros _ [c Hc]. discriminate.
Qed.

(** [remove_self] never raises and reads no input.  It removes nothing
    but the script; and it does remove the script when that is a file
    and the environment lets the deletion through. *)
Theorem remove_self_returns (w : world) :
  exists w',
    remove_self w = (Ret tt, w')
    /\ stdin w' = stdin w
    /\ (forall p, p <> script w -> fs w' !! p = fs w !! p)
    /\ (fs w' = fs w \/ fs w' !! script w = None)
    /\ (fault w (SysUnlink (script w)) = None ->
        (exists content, fs w !! script w = Some (File content)) ->
        fs w' !! script w = None).
Proof. exact (remove_self_outcome w). Qed.

(** ** The version-control step *)

(** Any answer but [y] or [yes] (the empty answer included) leaves the
    repository alone: [reinit_git] returns [True] and nothing but the
    terminal has changed. *)
Theorem reinit_git_declined (line : str) (rest : list event) (w : world) :
  stdin w = Line line :: rest ->
  says_yes line = false ->
  exists w',
    reinit_git w = (Ret true, w') /\ same_disk w w' /\ stdin w' = rest.
Proof.
  unfold says_yes. intros Hin Hno. unfold reinit_git. run.
  rewrite (run_input _ line rest) by exact Hin. cbv beta iota zeta.
  rewrite Hno. run. eexists. repeat split.
Qed.

Lemma reinit_git_declined_witness :
  exists w',
    reinit_git (checkout [[]; u "later"] all_fail) = (Ret true, w')
    /\ same_disk (checkout [[]; u "later"] all_fail) w'
    /\ stdin w' = [Line (u "later")].
Proof.
  apply (reinit_git_declined [] [Line (u "later")]); reflexivity.
Defined.


(** When the user asks for it, [.git] is a directory and the
    environment lets the deletion and the [git] command through,
    [reinit_git] returns [True]: [.git] is a directory again, what lies
    below it is what [git init] has written and nothing of the old
    history, and the rest of the disk is as it was. *)
Theorem reinit_git_fresh (line : str) (rest : list event) (w : world) :
  stdin w = Line line :: rest ->
  says_yes line = true ->
  fs w !! Path (u ".git") = Some Dir ->
  fault w (SysRmtree (Path (u ".git"))) = None ->
  fault w SysGitInit = None ->
  exists w',
    reinit_git w = (Ret true, w')
    /\ stdin w' = rest
    /\ fs w' !! Path (u ".git") = Some Dir
    /\ (forall r, r <> [] -> fs w' !! (Path (u ".git") ++ r) = git_template w !! r)
    /\ (forall k, under (Path (u ".git")) k = None -> fs w' !! k = fs w !! k).
Proof.
  unfold says_yes. intros Hin Hyes Hgit Hrm Hinit.
  unfold reinit_git. run.
  rewrite (run_input _ line rest) by exact Hin. cbv beta iota zeta.
  rewrite Hyes. run.
  set (w0 := with_stdin rest _).
  change (fs w0) with (fs w).
  assert (Hfound : exists_ (fs w) (Path (u ".git")) = true)
    by (unfold exists_, lookup_node; cbn; rewrite Hgit; reflexivity).
  rewrite Hfound. run.
  unfold rmtree. change (fault w0) with (fault w). change (fs w0) with (fs w).
  rewrite Hrm, Hgit. run.
  unfold git_init. cbn [fault say with_fs with_stdout]. change (fault w0) with (fault w).
  rewrite Hinit. run.
  eexists. split; [reflexivity |].
  cbn [stdin fs git_template say with_fs with_stdout]. change (stdin w0) with rest.
  change (git_template w0) with (git_template w).
  change (Path (u ".git")) with [u ".git"].
  repeat split.
  - match goal with |- (?m ∪ kmap _ ?t) !! _ = _ =>
      pose proof (planted_lookup_below [u ".git"] [] t m) as H
    end.
    rewrite (app_nil_r [u ".git"]) in H. rewrite H, remove_tree_lookup.
    pose proof (under_app [u ".git"] []) as Hself.
    rewrite (app_nil_r [u ".git"]) in Hself. rewrite Hself.
    apply lookup_insert_eq.
  - intros r Hr.
    rewrite planted_lookup_below, remove_tree_lookup, under_app.
    apply lookup_insert_ne. congruence.
  - intros k Hk.
    rewrite planted_lookup_other by exact Hk.
    rewrite remove_tree_lookup, Hk. reflexivity.
Qed.

Lemma reinit_git_fresh_witness :
  let w := checkout [u "Yes"] no_faults in
  exists w',
    reinit_git w = (Ret true, w')
    /\ fs w' !! [u ".git"] = Some Dir
    /\ fs w' !! [u ".git"; u "HEAD"]
       = Some (File (u "ref: refs/heads/master" ++ [newline]))
    /\ fs w' !! [u "pyproject.toml"] = Some (File pyproject_text).
Proof.
  intros w.
  destruct (reinit_git_fresh (u "Yes") [] w) as (w' & E & _ & Hgit & Hbelow & Hrest);
    try (vm_compute; reflexivity).
  exists w'. split; [exact E |]. split; [exact Hgit |]. split.
  - etransitivity; [apply (Hbelow [u "HEAD"]); discriminate |].
    vm_compute. reflexivity.
  - etransitivity; [apply (Hrest [u "pyproject.toml"]); reflexivity |].
    vm_compute. reflexivity.
Defined.

(** With an answer waiting on standard input the version-control step
    never raises, whatever the environment does: it returns a flag,
    having read that one line, and the flag is [False] only when the
    user had asked for the reinitialisation. *)
Theorem reinit_git_returns (line : str) (rest : list event) (w : world) :
  stdin w = Line line :: rest ->
  exists b w',
    reinit_git w = (Ret b, w')
    /\ stdin w' = rest
    /\ (b = false -> says_yes line = true).
Proof.
  unfold says_yes. intros Hin. unfold reinit_git. run.
  rewrite (run_input _ line rest) by exact Hin. cbv beta iota zeta.
  destruct (str_in (lower (strip line)) [u "y"; u "yes"]); run.
  2: { eexists _, _. split; [reflexivity |]. split; [reflexivity | discriminate]. }
  set (w0 := with_stdin rest _).
  assert (Hgit : forall v, stdin v = rest ->
            exists b w',
              match (git_init ;;
                     (print (tick ++ u " Initialized new git repository") ;; ret true)) v
              with
              | (Raise (Exception msg), w') =>
                  (print (warning ++ u "  Warning: Git reinitialization failed: " ++ msg)
                   ;; ret false) w'
              | r => r
              end = (Ret b, w') /\ stdin w' = rest).
  { intros v Hv. run. unfold git_init. destruct (fault v SysGitInit); run;
      eexists _, _; split; try reflexivity; exact Hv. }
  destruct (exists_ (fs w0) (Path (u ".git"))); run.
  - destruct (rmtree_outcome (Path (u ".git")) w0) as [[m E] | (e & m & E)];
      rewrite E; run.
    + destruct (Hgit (say (tick ++ u " Removed old .git directory") (with_fs m w0))
                  eq_refl) as (b & w' & Eg & Hw').
      revert Eg. run. intros Eg. rewrite Eg.
      exists b, w'. split; [reflexivity |]. split; [exact Hw' | reflexivity].
    + eexists _, _. split; [reflexivity |]. split; reflexivity.
  - destruct (Hgit w0 eq_refl) as (b & w' & Eg & Hw').
    revert Eg. run. intros Eg. rewrite Eg.
    exists b, w'. split; [reflexivity |]. split; [exact Hw' | reflexivity].
Qed.

Lemma reinit_git_returns_witness :
  exists b w',
    reinit_git (checkout [u "y"; u "n"] all_fail) = (Ret b, w')
    /\ stdin w' = [Line (u "n")].
Proof.
  destruct (reinit_git_returns (u "y") [Line (u "n")] (checkout [u "y"; u "n"] all_fail))
    as (b & w' & E & Hin & _); [reflexivity |].
  exists b, w'. split; assumption.
Defined.

(** ** The whole run *)

(** Without [pyproject.toml] in the working directory the script stops
    at once with exit status 1: no question is asked, no input is read
    and nothing is changed. *)
Theorem run_without_pyproject (w : world) :
  exists_ (fs w) (Path (u "pyproject.toml")) = false ->
  run_script w
  = (1%Z,
     say (u "Please run this script from the template root directory.")
       (say (cross ++ u " Error: pyproject.toml not found!") w)).
Proof.
  intros H. unfold run_script, main. run. rewrite H. cbn [negb]. run. reflexivity.
Qed.

Lemma run_without_pyproject_witness :
  let w := with_fs (delete [u "pyproject.toml"] template_fs) (checkout [] no_faults) in
  fst (run_script w) = 1%Z.
Proof.
  intros w. rewrite (run_without_pyproject w); [reflexivity |].
  vm_compute. reflexivity.
Defined.

(** When the questions are cut short (the input ends, or the user
    presses Ctrl-C), the exception reaches the top level: the script
    reports it and exits with status 1, and nothing on disk has
    changed. *)
Theorem questions_cut_short (e : exn) (w w1 : world) :
  exists_ (fs w) (Path (u "pyproject.toml")) = true ->
  get_user_input w = (Raise e, w1) ->
  run_script w = (1%Z, say (top_level_report e) w1) /\ same_disk w w1.
Proof.
  intros Hfound Hask. split.
  - unfold run_script, main. run. rewrite Hfound. cbn [negb]. run. rewrite Hask.
    destruct e; reflexivity.
  - pose proof (terminal_only_get_user_input w) as H. rewrite Hask in H. exact H.
Qed.

Lemma questions_cut_short_witness :
  let w := World template_fs [Line (u "My GenAI App"); Line []; Interrupt] [] all_fail
             [u "init_template.py"] git_skeleton in
  exists w1,
    run_script w = (1%Z, say ([newline; newline] ++ u "Aborted by user.") w1)
    /\ same_disk w w1.
Proof.
  intros w. exists (snd (get_user_input w)).
  apply (questions_cut_short KeyboardInterrupt w).
  - vm_compute. reflexivity.
  - apply pair_with_snd. vm_compute. reflexivity.
Defined.

(** The four steps always run one after the other, each in the world
    the one before left, also after a failure; and when any of them has
    returned [False] the script prints the error report and exits with
    status 1, leaving the disk as the last step left it and the script
    in place. *)
Theorem any_failed_step_exits_1
    (package_name project_name author_name author_email answer : str)
    (w wa w1 w2 w3 w4 : world) (b1 b2 b3 b4 : bool) (rest0 : list event) :
  exists_ (fs w) (Path (u "pyproject.toml")) = true ->
  get_user_input w = (Ret (package_name, project_name, author_name, author_email), wa) ->
  stdin wa = Line answer :: rest0 ->
  says_no answer = false ->
  rename_package (u "template_package") package_name
    (steps_begin package_name project_name author_name author_email rest0 wa)
    = (Ret b1, w1) ->
  update_pyproject_toml package_name project_name author_name author_email w1
    = (Ret b2, w2) ->
  update_package_init package_name w2 = (Ret b3, w3) ->
  reinit_git w3 = (Ret b4, w4) ->
  b1 && b2 && b3 && b4 = false ->
  exists w5,
    run_script w = (1%Z, w5)
    /\ same_disk w4 w5 /\ stdin w5 = stdin w4
    /\ List.last (stdout w5) []
       = u "Please review the errors above and fix manually if needed."
    /\ In errors_report (stdout w5).
Proof.
  unfold steps_begin. intros Hfound Hask Hin0 Hno H1 H2 H3 H4 Hflag.
  unfold run_script.
  rewrite (main_proceeds w wa package_name project_name author_name author_email
             answer rest0) by assumption.
  unfold initialize. run.
  rewrite H1. run. rewrite H2. run. rewrite H3. run. rewrite H4. run.
  cbn [andb]. rewrite Hflag. run.
  eexists. split; [reflexivity |]. split; [repeat split |]. split; [reflexivity |].
  unfold errors_report, say. cbn [stdout with_stdout]. split.
  - rewrite last_last. reflexivity.
  - rewrite !in_app_iff. cbn [In]. tauto.
Qed.

Lemma any_failed_step_exits_1_witness :
  let w := checkout [u "Template Package"; []; []; []; []; []; []] no_faults in
  exists w5,
    run_script w = (1%Z, w5) /\ In errors_report (stdout w5)
    /\ fs w5 !! [u "pyproject.toml"]
       = Some (File (edited_text (u "template-package") (u "Your Name")
                       (u "your.email@example.com"))).
Proof.
  intros w.
  pose (package_name := u "template_package").
  pose (project_name := u "template-package").
  pose (author_name := u "Your Name").
  pose (author_email := u "your.email@example.com").
  pose (wa := snd (get_user_input w)).
  pose (r1 := rename_package (u "template_package") package_name
                (steps_begin package_name project_name author_name author_email
                   [Line []] wa)).
  pose (r2 := update_pyproject_toml package_name project_name author_name author_email
                (snd r1)).
  pose (r3 := update_package_init package_name (snd r2)).
  pose (r4 := reinit_git (snd r3)).
  destruct (any_failed_step_exits_1
              package_name project_name author_name author_email []
              w wa (snd r1) (snd r2) (snd r3) (snd r4) false true true true [Line []])
    as (w5 & Hrun & (Hfs & _) & _ & _ & Herr).
  - vm_compute. reflexivity.
  - subst wa. apply pair_with_snd. vm_compute. reflexivity.
  - vm_compute. reflexivity.
  - vm_compute. reflexivity.
  - subst wa r1. apply pair_with_snd. vm_compute. reflexivity.
  - subst wa r1 r2. apply pair_with_snd. vm_compute. reflexivity.
  - subst wa r1 r2 r3. apply pair_with_snd. vm_compute. reflexivity.
  - subst wa r1 r2 r3 r4. apply pair_with_snd. vm_compute. reflexivity.
  - reflexivity.
  - exists w5. split; [exact Hrun |]. split; [exact Herr |].
    rewrite Hfs. vm_compute. reflexivity.
Defined.

(** When all four steps have returned [True] the script prints the
    success report, asks whether to remove itself and exits with status
    0.  After the answer [n] or [no] the disk is as the last step left
    it; after any other answer nothing but the script can be gone, and
    the script is gone when it is a file and the environment lets the
    deletion through. *)
Theorem all_steps_succeed
    (package_name project_name author_name author_email answer line : str)
    (w wa w1 w2 w3 w4 : world) (rest0 rest : list event) :
  exists_ (fs w) (Path (u "pyproject.toml")) = true ->
  get_user_input w = (Ret (package_name, project_name, author_name, author_email), wa) ->
  stdin wa = Line answer :: rest0 ->
  says_no answer = false ->
  rename_package (u "template_package") package_name
    (steps_begin package_name project_name author_name author_email rest0 wa)
    = (Ret true, w1) ->
  update_pyproject_toml package_name project_name author_name author_email w1
    = (Ret true, w2) ->
  update_package_init package_name w2 = (Ret true, w3) ->
  reinit_git w3 = (Ret true, w4) ->
  stdin w4 = Line line :: rest ->
  exists w5,
    run_script w = (0%Z, w5)
    /\ In success_report (stdout w5)
    /\ stdin w5 = rest
    /\ (forall p, p <> script w4 -> fs w5 !! p = fs w4 !! p)
    /\ (says_no line = true -> fs w5 = fs w4)
    /\ (says_no line = false ->
        fault w4 (SysUnlink (script w4)) = None ->
        (exists content, fs w4 !! script w4 = Some (File content)) ->
        fs w5 !! script w4 = None).
Proof.
  unfold steps_begin, says_no at 2 3.
  intros Hfound Hask Hin0 Hno H1 H2 H3 H4 Hin.
  unfold run_script.
  rewrite (main_proceeds w wa package_name project_name author_name author_email
             answer rest0) by assumption.
  unfold initialize. run.
  rewrite H1. run. rewrite H2. run. rewrite H3. run. rewrite H4. run.
  cbn [andb]. run.
  match goal with
  | |- context [input ?prompt ?v] =>
      rewrite (run_input prompt line rest v) by exact Hin; set (w4' := with_stdin rest _)
  end.
  cbv beta iota zeta.
  assert (Hreport : In success_report (stdout w4')).
  { unfold w4', success_report, say. cbn [stdout with_stdout with_stdin].
    rewrite !in_app_iff. cbn [In]. tauto. }
  destruct (str_in (lower (strip line)) [u "n"; u "no"]); cbn [negb]; run.
  - eexists. split; [reflexivity |]. repeat split; try discriminate. exact Hreport.
  - destruct (remove_self_outcome w4') as (w5 & E & Hin5 & Hother & _ & Hgone).
    rewrite E. run. exists w5. split; [reflexivity |].
    split.
    { destruct (remove_self_outcome w4') as (w5' & E' & _).
      rewrite E in E'. inversion E'; subst w5'. clear E'.
      unfold remove_self in E. revert E. run. unfold unlink.
      destruct (fault w4' (SysUnlink (script w4'))); run.
      - intros [= <-]. cbn [stdout say with_stdout]. apply in_or_app. left. exact Hreport.
      - destruct (fs w4' !! script w4') as [[c|]|]; unfold oserror; run;
          intros [= <-]; cbn [stdout say with_stdout with_fs];
          apply in_or_app; left; exact Hreport. }
    split; [exact Hin5 |]. split; [exact Hother |].
    split; [discriminate |]. intros _. exact Hgone.
Qed.

Lemma all_steps_succeed_witness :
  let w := checkout [u "My GenAI App"; []; []; []; []; []; u "y"; []] no_faults in
  exists w5,
    run_script w = (0%Z, w5)
    /\ In success_report (stdout w5)
    /\ fs w5 !! [u "init_template.py"] = None.
Proof.
  intros w.
  pose (package_name := u "my_genai_app").
  pose (project_name := u "my-genai-app").
  pose (author_name := u "Your Name").
  pose (author_email := u "your.email@example.com").
  pose (wa := snd (get_user_input w)).
  pose (r1 := rename_package (u "template_package") package_name
                (steps_begin package_name project_name author_name author_email
                   [Line (u "y"); Line []] wa)).
  pose (r2 := update_pyproject_toml package_name project_name author_name author_email
                (snd r1)).
  pose (r3 := update_package_init package_name (snd r2)).
  pose (r4 := reinit_git (snd r3)).
  destruct (all_steps_succeed
              package_name project_name author_name author_email [] []
              w wa (snd r1) (snd r2) (snd r3) (snd r4) [Line (u "y"); Line []] [])
    as (w5 & Hrun & Hreport & _ & _ & _ & Hgone).
  - vm_compute. reflexivity.
  - subst wa. apply pair_with_snd. vm_compute. reflexivity.
  - vm_compute. reflexivity.
  - vm_compute. reflexivity.
  - subst wa r1. apply pair_with_snd. vm_compute. reflexivity.
  - subst wa r1 r2. apply pair_with_snd. vm_compute. reflexivity.
  - subst wa r1 r2 r3. apply pair_with_snd. vm_compute. reflexivity.
  - subst wa r1 r2 r3 r4. apply pair_with_snd. vm_compute. reflexivity.
  - vm_compute. reflexivity.
  - exists w5. split; [exact Hrun |]. split; [exact Hreport |].
    apply Hgone.
    + vm_compute. reflexivity.
    + vm_compute. reflexivity.
    + exists (u "#!/usr/bin/env python3"). vm_compute. reflexivity.
Defined.

(** The prompt of the version-control step is outside its [try]: when
    the input has ended by then, the [EOFError] reaches the top level.
    The script exits with status 1 after the prompt and the top-level
    message, without the final report, although the three steps before
    have been carried out and stay as they are. *)
Theorem input_ends_at_git_prompt
    (package_name project_name author_name author_email answer : str)
    (w wa w1 w2 w3 : world) (b1 b2 b3 : bool) (rest0 : list event) :
  exists_ (fs w) (Path (u "pyproject.toml")) = true ->
  get_user_input w = (Ret (package_name, project_name, author_name, author_email), wa) ->
  stdin wa = Line answer :: rest0 ->
  says_no answer = false ->
  rename_package (u "template_package") package_name
    (steps_begin package_name project_name author_name author_email rest0 wa)
    = (Ret b1, w1) ->
  update_pyproject_toml package_name project_name author_name author_email w1
    = (Ret b2, w2) ->
  update_package_init package_name w2 = (Ret b3, w3) ->
  stdin w3 = [] ->
  exists w5,
    run_script w = (1%Z, w5)
    /\ same_disk w3 w5
    /\ stdout w5
       = stdout w3
           ++ [ [];
                u "Reinitialize git repository? (removes old history) [y/N]: ";
                top_level_report (Exception (u "EOF when reading a line")) ].
Proof.
  unfold steps_begin. intros Hfound Hask Hin0 Hno H1 H2 H3 Hin.
  unfold run_script.
  rewrite (main_proceeds w wa package_name project_name author_name author_email
             answer rest0) by assumption.
  unfold initialize. run.
  rewrite H1. run. rewrite H2. run. rewrite H3. run.
  unfold reinit_git. run. unfold input at 1. cbn [stdin say with_stdout]. rewrite Hin.
  cbv beta iota zeta.
  eexists. split; [reflexivity |]. split; [repeat split |].
  cbn [stdout say with_stdout snd print top_level_report].
  rewrite <- !app_assoc. reflexivity.
Qed.

Lemma input_ends_at_git_prompt_witness :
  let w := checkout [u "My GenAI App"; []; []; []; []; []] no_faults in
  exists w5,
    run_script w = (1%Z, w5)
    /\ fs w5 !! [u "src"; u "my_genai_app"] = Some Dir
    /\ fs w5 !! [u "init_template.py"] = Some (File (u "#!/usr/bin/env python3")).
Proof.
  intros w.
  pose (package_name := u "my_genai_app").
  pose (project_name := u "my-genai-app").
  pose (author_name := u "Your Name").
  pose (author_email := u "your.email@example.com").
  pose (wa := snd (get_user_input w)).
  pose (r1 := rename_package (u "template_package") package_name
                (steps_begin package_name project_name author_name author_email [] wa)).
  pose (r2 := update_pyproject_toml package_name project_name author_name author_email
                (snd r1)).
  pose (r3 := update_package_init package_name (snd r2)).
  destruct (input_ends_at_git_prompt
              package_name project_name author_name author_email []
              w wa (snd r1) (snd r2) (snd r3) true true true [])
    as (w5 & Hrun & (Hfs & _) & _).
  - vm_compute. reflexivity.
  - subst wa. apply pair_with_snd. vm_compute. reflexivity.
  - vm_compute. reflexivity.
  - vm_compute. reflexivity.
  - subst wa r1. apply pair_with_snd. vm_compute. reflexivity.
  - subst wa r1 r2. apply pair_with_snd. vm_compute. reflexivity.
  - subst wa r1 r2 r3. apply pair_with_snd. vm_compute. reflexivity.
  - vm_compute. reflexivity.
  - exists w5. split; [exact Hrun |]. rewrite Hfs.
    split; vm_compute; reflexivity.
Defined.

(** *** The exit status *)

Lemma returns_ret {A : Type} (P : A -> Prop) (a : A) : P a -> returns P (ret a).
Proof. intros H w a' w' [= <- _]. exact H. Qed.

Lemma returns_bind {A B : Type} (P : B -> Prop) (m : M A) (k : A -> M B) :
  (forall a, returns P (k a)) -> returns P (bind m k).
Proof.
  intros Hk w b w'. unfold bind. destruct (m w) as [[a|e] w1]; [| discriminate].
  apply Hk.
Qed.

Ltac returns_step :=
  cbv zeta;
  lazymatch goal with
  | |- returns _ (bind _ _) => apply returns_bind; intros ?
  | |- returns _ (ret _) => apply returns_ret; auto
  | |- returns _ (match ?x with _ => _ end) => destruct x
  end.

Lemma main_returns_0_or_1 : returns (fun code => code = 0%Z \/ code = 1%Z) main.
Proof. unfold main, initialize. repeat returns_step. Qed.

(** Whatever the disk holds, whatever is typed and whatever fails, the
    exit status of the script is 0 or 1. *)
Theorem exit_status_0_or_1 (w : world) :
  fst (run_script w) = 0%Z \/ fst (run_script w) = 1%Z.
Proof.
  unfold run_script. destruct (main w) as [[code|[e|]] w'] eqn:E; cbn [fst]; auto.
  exact (main_returns_0_or_1 w code w' E).
Qed.
